(** * Measurement sensor device class (drivers/legoev3/msensor_class.c)

    A shallow embedding of the float <-> fixed point codec and of the
    sysfs attribute handlers of the msensor class, together with the
    properties of the specification that concern them.

    Conventions.
    - C integers are modelled as [Z] with the wrap-around written out:
      [uint] and [int] are 32 bits wide; the width of [unsigned long] is
      the section variable [LONG_BITS] (32 on the EV3's ARM9 core, 64 on
      an LP64 build of the same file).
    - A C operation whose behaviour is undefined (a shift count that is
      not smaller than the width of the shifted type, an access outside
      a buffer or outside the mode table) makes the embedding return
      [None].
    - Loops whose termination depends on the data take a [fuel]
      argument: [None] then means that the loop is still running after
      [fuel] iterations. *)

From Stdlib Require Import ZArith List String Ascii Bool Lia Arith.
From Stdlib Require Import DecimalString.
Import ListNotations.

Local Open Scope Z_scope.

(** ** Machine integers *)

Definition INT_MAX : Z := 2147483647.
Definition INT_MIN : Z := -2147483648.

(** Conversion to [uint]: reduction modulo 2^32. *)
Definition to_uint (x : Z) : Z := x mod 2 ^ 32.

(** Conversion to [int]: the low 32 bits, read in two's complement. *)
Definition to_int (x : Z) : Z :=
  let y := x mod 2 ^ 32 in
  if y <? 2 ^ 31 then y else y - 2 ^ 32.

(** Conversion to [unsigned char]. *)
Definition to_uchar (x : Z) : Z := x mod 256.

(** A tiny error monad for partial computations. *)
Definition obind {A B : Type} (o : option A) (k : A -> option B) : option B :=
  match o with
  | Some a => k a
  | None => None
  end.

Notation "x <- e ;; k" := (obind e (fun x => k))
  (at level 61, e at next level, right associativity).
Notation "' p <- e ;; k" := (obind e (fun p => k))
  (at level 61, p pattern, e at next level, right associativity).

(** ** The numeric codec *)

Section Codec.

(** Width in bits of [long] and [unsigned long]. *)
Variable LONG_BITS : Z.

(** Conversion to [unsigned long]. *)
Definition to_ulong (x : Z) : Z := x mod 2 ^ LONG_BITS.

(** [while (dp--) i *= 10;] on an [unsigned long]. *)
Fixpoint mul10_loop (dp : nat) (i : Z) : Z :=
  match dp with
  | O => i
  | S dp' => mul10_loop dp' (to_ulong (i * 10))
  end.

(** [return s * i;]: the product is formed in [unsigned long] and
    converted to the [int] result. *)
Definition apply_sign (s i : Z) : Z :=
  to_int (to_ulong (to_ulong s * i)).

(** [msensor_ftoi]: 32-bit IEEE 754 float to fixed point integer. *)
Definition msensor_ftoi (f : Z) (dp : nat) : option Z :=
  let s := if Z.land f 0x80000000 =? 0 then 1 else -1 in
  let e := to_uchar (Z.shiftr (Z.land f 0x7F800000) 23) in
  let i := to_ulong (Z.land f 0x007FFFFF) in
  if e =? 0 then Some 0
  else if e =? 255 then Some (if s =? 1 then INT_MAX else INT_MIN)
  else
    let i := to_ulong (i + Z.shiftl 1 23) in
    let i := mul10_loop dp i in
    if e <? 150 then
      if 150 - e <? LONG_BITS then
        let m := i mod to_ulong (Z.shiftl 1 (150 - e)) in
        let i := to_ulong (i + Z.shiftr m 1) in
        let i := Z.shiftr i (150 - e) in
        Some (apply_sign s i)
      else None
    else
      if e - 150 <? LONG_BITS then
        let i := to_ulong (Z.shiftl i (e - 150)) in
        Some (apply_sign s i)
      else None.

(** [while (dp-- > 0) f /= 10;] *)
Fixpoint div10_loop (dp : nat) (f : Z) : Z :=
  match dp with
  | O => f
  | S dp' => div10_loop dp' (f / 10)
  end.

(** [while (f >= (1 << 24)) { f >>= 1; e++; }] *)
Fixpoint norm_down (fuel : nat) (f e : Z) : option (Z * Z) :=
  if f >=? Z.shiftl 1 24 then
    match fuel with
    | O => None
    | S fuel' => norm_down fuel' (Z.shiftr f 1) (to_uchar (e + 1))
    end
  else Some (f, e).

(** [while (f < (1 << 23)) { f <<= 1; e--; }] *)
Fixpoint norm_up (fuel : nat) (f e : Z) : option (Z * Z) :=
  if f <? Z.shiftl 1 23 then
    match fuel with
    | O => None
    | S fuel' => norm_up fuel' (to_ulong (Z.shiftl f 1)) (to_uchar (e - 1))
    end
  else Some (f, e).

(** [msensor_itof]: fixed point integer to 32-bit IEEE 754 float.
    Each of the two normalisation loops may run [fuel] times. *)
Definition msensor_itof (fuel : nat) (i : Z) (dp : nat) : option Z :=
  let s := if i <? 0 then -1 else 1 in
  let e := 127 in
  let f := to_ulong (to_int (i * s)) in
  if i =? 0 then Some 0
  else
    let f := to_ulong (Z.shiftl f 23) in
    let f := div10_loop dp f in
    '(f, e) <- norm_down fuel f e ;;
    '(f, e) <- norm_up fuel f e ;;
    let f := to_ulong (f - Z.shiftl 1 23) in
    let f := if s =? -1 then Z.lor f 0x80000000 else f in
    Some (to_uint (Z.lor f (Z.shiftl e 23))).

End Codec.

(** ** The measurement sensor device *)

Definition EINVAL : Z := 22.
Definition ENXIO : Z := 6.

(** Modelled from the spec: [enum msensor_data_type] of
    linux/legoev3/msensor_class.h, the encoding of the values in
    [raw_data]; the four formats of the data model. *)
Inductive msensor_data_type : Type :=
| MSENSOR_DATA_8
| MSENSOR_DATA_16
| MSENSOR_DATA_32
| MSENSOR_DATA_FLOAT.

(** Modelled from the spec: [struct msensor_mode_info] of
    linux/legoev3/msensor_class.h, with the fields this file reads.
    [raw_data] is the byte buffer of the mode, each byte a number below
    256. *)
Record msensor_mode_info : Type := {
  name : string;
  raw_min : Z;
  raw_max : Z;
  pct_min : Z;
  pct_max : Z;
  si_min : Z;
  si_max : Z;
  units : string;
  decimals : nat;
  data_sets : Z;
  format : msensor_data_type;
  raw_data : list Z
}.

(** Modelled from the spec: [struct msensor_device] of
    linux/legoev3/msensor_class.h.  The table [mode_info] has [num_modes]
    entries.  The three callbacks work on the driver's [context],
    which is threaded through explicitly: [set_mode] and [write_data]
    return the new driver state next to their [int] result. *)
Record msensor_device (context : Type) : Type := {
  type_id : Z;
  mode_info : list msensor_mode_info;
  get_mode : context -> Z;
  set_mode : context -> Z -> context * Z;
  write_data : context -> list Z -> Z -> Z -> context * Z
}.

Arguments type_id {context} _.
Arguments mode_info {context} _.
Arguments get_mode {context} _ _.
Arguments set_mode {context} _ _ _.
Arguments write_data {context} _ _ _ _ _.

Definition num_modes {context : Type} (ms : msensor_device context) : Z :=
  Z.of_nat (List.length (mode_info ms)).

(** [ms->mode_info[mode]]; outside the table the access is undefined. *)
Definition mode_at {context : Type} (ms : msensor_device context) (mode : Z)
  : option msensor_mode_info :=
  if mode <? 0 then None else nth_error (mode_info ms) (Z.to_nat mode).

(** *** Text helpers: what [sprintf] and [sscanf] do for ["%d"] *)

Definition string_of_Z (v : Z) : string := NilZero.string_of_int (Z.to_int v).

(** [sprintf(buf, "%d\n", v)]: the text written and its length. *)
Definition sprintf_d_nl (v : Z) : Z * string :=
  let out := (string_of_Z v ++ String "010" EmptyString)%string in
  (Z.of_nat (String.length out), out).

Fixpoint skip_chars (n : nat) (s : string) : string :=
  match n, s with
  | O, _ => s
  | S n', String _ s' => skip_chars n' s'
  | S _, EmptyString => EmptyString
  end.

Definition digit_of (c : ascii) : option Z :=
  let n := Z.of_nat (nat_of_ascii c) in
  if (48 <=? n) && (n <=? 57) then Some (n - 48) else None.

Fixpoint scan_digits (s : string) (acc : option Z) : option Z :=
  match s with
  | EmptyString => acc
  | String c s' =>
      match digit_of c with
      | Some d =>
          scan_digits s' (Some (match acc with Some a => a * 10 + d | None => d end))
      | None => acc
      end
  end.

(** The kernel's [isspace] and [skip_spaces]. *)
Definition isspace (c : ascii) : bool :=
  let n := Z.of_nat (nat_of_ascii c) in
  ((9 <=? n) && (n <=? 13)) || (n =? 32) || (n =? 160).

Fixpoint skip_spaces (s : string) : string :=
  match s with
  | EmptyString => EmptyString
  | String c s' => if isspace c then skip_spaces s' else s
  end.

(** [sscanf(s, "%d", &index)]: [Some index] when one number was
    converted, [None] when the result of [sscanf] is not 1.  White
    space before the number is skipped. *)
Definition sscanf_d (s : string) : option Z :=
  match skip_spaces s with
  | String "-" s' => option_map (fun v => to_int (- v)) (scan_digits s' None)
  | s0 => option_map to_int (scan_digits s0 None)
  end.

(** Storing one character: [buf[idx] = c]. *)
Fixpoint store_char (buf : string) (idx : nat) (c : ascii) : string :=
  match buf, idx with
  | EmptyString, _ => EmptyString
  | String _ rest, O => String c rest
  | String b rest, S idx' => String b (store_char rest idx' c)
  end.

(** *** Raw buffer access *)

Definition load_u8 (mem : list Z) (off : Z) : option Z :=
  if off <? 0 then None else nth_error mem (Z.to_nat off).

(** Little-endian load of [n] bytes (the EV3 runs little-endian). *)
Fixpoint load_le (n : nat) (mem : list Z) (off : Z) : option Z :=
  match n with
  | O => Some 0
  | S n' =>
      b <- load_u8 mem off ;;
      hi <- load_le n' mem (off + 1) ;;
      Some (Z.lor b (Z.shiftl hi 8))
  end.

(** Reading a [bits]-wide unsigned number as a signed one. *)
Definition sign_extend (bits x : Z) : Z :=
  if x <? 2 ^ (bits - 1) then x else x - 2 ^ bits.

(** [memcpy(dst + dst_off, src, n)] on byte lists; undefined when
    either range leaves its buffer. *)
Definition memcpy (dst : list Z) (dst_off : Z) (src : list Z) (n : Z)
  : option (list Z) :=
  if (dst_off <? 0) || (n <? 0)
     || (Z.of_nat (List.length dst) <? dst_off + n)
     || (Z.of_nat (List.length src) <? n)
  then None
  else Some (firstn (Z.to_nat dst_off) dst
               ++ firstn (Z.to_nat n) src
               ++ skipn (Z.to_nat (dst_off + n)) dst).

Section Device.

Variable LONG_BITS : Z.
Variable context : Type.

(** The kernel's [sysfs_streq] (lib/string.c) is taken as a parameter. *)
Variable sysfs_streq : string -> string -> bool.

Variable ms : msensor_device context.

(** [msensor_show_mode]: the loop over the table, appending to [buf]. *)
Fixpoint show_mode_loop (mode : Z) (infos : list msensor_mode_info)
         (i : Z) (buf : string) : string :=
  match infos with
  | [] => buf
  | mi :: rest =>
      let buf := if i =? mode then (buf ++ "[")%string else buf in
      let buf := (buf ++ name mi)%string in
      let buf := if i =? mode then (buf ++ "]")%string else buf in
      let buf := (buf ++ " ")%string in
      show_mode_loop mode rest (i + 1) buf
  end.

(** [msensor_show_mode]: the return value and the text left in [buf]. *)
Definition msensor_show_mode (ctx : context) (buf : string) : Z * string :=
  let mode := get_mode ms ctx in
  let out := show_mode_loop mode (mode_info ms) 0 EmptyString in
  let count := Z.of_nat (String.length out) in
  if count =? 0 then (- ENXIO, buf)
  else (count, store_char out (Z.to_nat (count - 1)) "010"%char).

(** [msensor_store_mode]: the scan of the table from entry [i] on. *)
Fixpoint store_mode_loop (infos : list msensor_mode_info) (i : Z)
         (ctx : context) (buf : string) (count : Z) : context * Z :=
  match infos with
  | [] => (ctx, - EINVAL)
  | mi :: rest =>
      if sysfs_streq buf (name mi) then
        let '(ctx', err) := set_mode ms ctx i in
        if err =? 0 then (ctx', count) else (ctx', err)
      else store_mode_loop rest (i + 1) ctx buf count
  end.

Definition msensor_store_mode (ctx : context) (buf : string) (count : Z)
  : context * Z :=
  store_mode_loop (mode_info ms) 0 ctx buf count.

Definition msensor_raw_s8_value (ctx : context) (index : Z) : option Z :=
  let mode := get_mode ms ctx in
  mi <- mode_at ms mode ;;
  v <- load_le 1 (raw_data mi) index ;;
  Some (sign_extend 8 v).

Definition msensor_raw_s16_value (ctx : context) (index : Z) : option Z :=
  let mode := get_mode ms ctx in
  mi <- mode_at ms mode ;;
  v <- load_le 2 (raw_data mi) (index * 2) ;;
  Some (sign_extend 16 v).

Definition msensor_raw_s32_value (ctx : context) (index : Z) : option Z :=
  let mode := get_mode ms ctx in
  mi <- mode_at ms mode ;;
  v <- load_le 4 (raw_data mi) (index * 4) ;;
  Some (sign_extend 32 v).

Definition msensor_raw_float_value (ctx : context) (index : Z) : option Z :=
  let mode := get_mode ms ctx in
  mi <- mode_at ms mode ;;
  v <- load_le 4 (raw_data mi) (index * 4) ;;
  msensor_ftoi LONG_BITS v (decimals mi).

(** [msensor_show_value] from the range check on, [index] being the
    number read from the attribute name. *)
Definition show_value_at (ctx : context) (buf : string) (index : Z)
  : option (Z * string) :=
  let mode := get_mode ms ctx in
  mi <- mode_at ms mode ;;
  if (index <? 0) || (index >=? data_sets mi) then Some (- ENXIO, buf)
  else
    match format mi with
    | MSENSOR_DATA_8 =>
        v <- msensor_raw_s8_value ctx index ;; Some (sprintf_d_nl v)
    | MSENSOR_DATA_16 =>
        v <- msensor_raw_s16_value ctx index ;; Some (sprintf_d_nl v)
    | MSENSOR_DATA_32 =>
        v <- msensor_raw_s32_value ctx index ;; Some (sprintf_d_nl v)
    | MSENSOR_DATA_FLOAT =>
        v <- msensor_raw_float_value ctx index ;; Some (sprintf_d_nl v)
    end.

(** [msensor_show_value], [attr_name] being [attr->attr.name]. *)
Definition msensor_show_value (ctx : context) (attr_name : string)
           (buf : string) : option (Z * string) :=
  let count := - ENXIO in
  if Z.of_nat (String.length attr_name) <? 6 then Some (count, buf)
  else
    match sscanf_d (skip_chars 5 attr_name) with
    | None => Some (count, buf)
    | Some index => show_value_at ctx buf index
    end.

(** [msensor_read_bin_data]: [attr_size] is [attr->size]; the result
    is the return value and the new contents of [buf]. *)
Definition msensor_read_bin_data (ctx : context) (attr_size : Z)
           (buf : list Z) (off count : Z) : option (Z * list Z) :=
  let mode := get_mode ms ctx in
  let size := attr_size in
  if (off >=? size) || (count =? 0) then Some (0, buf)
  else
    let size := size - off in
    let size := if count <? size then count else size in
    mi <- mode_at ms mode ;;
    buf' <- memcpy buf off (raw_data mi) size ;;
    Some (size, buf').

End Device.

Arguments store_mode_loop {context} _ _ _ _ _ _ _.
Arguments msensor_show_mode {context} _ _ _.
Arguments msensor_store_mode {context} _ _ _ _ _.
Arguments msensor_raw_s8_value {context} _ _ _.
Arguments msensor_raw_s16_value {context} _ _ _.
Arguments msensor_raw_s32_value {context} _ _ _.
Arguments msensor_raw_float_value _ {context} _ _ _.
Arguments show_value_at _ {context} _ _ _ _.
Arguments msensor_show_value _ {context} _ _ _ _.
Arguments msensor_read_bin_data {context} _ _ _ _ _ _.

(** The bytes a read of the binary attribute hands back: sysfs copies
    the first [ret] bytes of [buf] to the reader. *)
Definition bytes_returned (r : Z * list Z) : list Z :=
  firstn (Z.to_nat (fst r)) (snd r).

(** ** Reference notions used to state the properties *)

(** The three fields of an IEEE 754 single: the sign as [1] or [-1],
    the biased exponent, and the mantissa with its implicit leading
    one. *)
Definition float_sign (f : Z) : Z :=
  if Z.land f 0x80000000 =? 0 then 1 else -1.

Definition float_exp (f : Z) : Z :=
  to_uchar (Z.shiftr (Z.land f 0x7F800000) 23).

Definition float_mant (f : Z) : Z := Z.land f 0x007FFFFF + 2 ^ 23.

(** The mantissa scaled by [10^dp], in unbounded arithmetic. *)
Definition scaled_mant (f : Z) (dp : nat) : Z :=
  float_mant f * 10 ^ Z.of_nat dp.

(** What the shifts of [msensor_ftoi] compute when nothing wraps. *)
Definition ideal_magnitude (f : Z) (dp : nat) : Z :=
  let e := float_exp f in
  let i := scaled_mant f dp in
  if e <? 150 then (i + (i mod 2 ^ (150 - e)) / 2) / 2 ^ (150 - e)
  else i * 2 ^ (e - 150).

(** The value of [i] when [msensor_ftoi] reaches [return s * i], for
    a normal exponent field: the magnitude as the code computes it in
    [unsigned long], wrap-around included. *)
Definition ftoi_magnitude (LONG_BITS f : Z) (dp : nat) : option Z :=
  let e := float_exp f in
  let i := to_ulong LONG_BITS (Z.land f 0x007FFFFF) in
  let i := to_ulong LONG_BITS (i + Z.shiftl 1 23) in
  let i := mul10_loop LONG_BITS dp i in
  if e <? 150 then
    if 150 - e <? LONG_BITS then
      let m := i mod to_ulong LONG_BITS (Z.shiftl 1 (150 - e)) in
      let i := to_ulong LONG_BITS (i + Z.shiftr m 1) in
      Some (Z.shiftr i (150 - e))
    else None
  else
    if e - 150 <? LONG_BITS then
      Some (to_ulong LONG_BITS (Z.shiftl i (e - 150)))
    else None.

(** The magnitude the specification asks for below exponent 150: the
    scaled value [i / 2^k] rounded to the nearest integer, a tie going
    up. *)
Definition round_half_up (i k : Z) : Z := (2 * i + 2 ^ k) / 2 ^ (k + 1).

(** The specification's [read_raw_window]: up to [max_len] bytes of
    the buffer from [offset] on, the buffer clipped to [size] bytes. *)
Definition read_raw_window (raw : list Z) (size offset max_len : Z) : list Z :=
  firstn (Z.to_nat max_len) (skipn (Z.to_nat offset) (firstn (Z.to_nat size) raw)).

(** The specification's [mode_list_display]: the names in table order,
    separated by one space, the name at index [cur] in brackets. *)
Fixpoint bracket_current (cur : Z) (i : Z) (names : list string) : list string :=
  match names with
  | [] => []
  | n :: rest =>
      (if i =? cur then ("[" ++ n ++ "]")%string else n)
        :: bracket_current cur (i + 1) rest
  end.

Definition mode_list_display (cur : Z) (names : list string) : string :=
  String.concat " " (bracket_current cur 0 names).

(** What [msensor_store_mode] does once it has found the name at
    index [i]: it calls the driver's [set_mode] and returns its error,
    or [count] when there is none. *)
Definition switch_to {context : Type} (ms : msensor_device context)
           (ctx : context) (i count : Z) : context * Z :=
  let '(ctx', err) := set_mode ms ctx i in
  if err =? 0 then (ctx', count) else (ctx', err).

(** A signed 16-bit number from its two bytes, low byte first. *)
Definition s16_of_bytes (b0 b1 : Z) : Z :=
  let u := b0 + 256 * b1 in
  if u <? 32768 then u else u - 65536.

(** *** Sample devices *)

Definition mk_mode (n : string) (dp : nat) (sets : Z) (fmt : msensor_data_type)
           (raw : list Z) : msensor_mode_info :=
  {| name := n; raw_min := 0; raw_max := 0; pct_min := 0; pct_max := 0;
     si_min := 0; si_max := 0; units := EmptyString; decimals := dp;
     data_sets := sets; format := fmt; raw_data := raw |}.

(** Modelled from the spec: the constant [MSENSOR_RAW_DATA_SIZE] of
    linux/legoev3/msensor_class.h, the capacity of a raw buffer: 8
    values of 4 bytes. *)
Definition MSENSOR_RAW_DATA_SIZE : Z := 32.

(** 32 bytes starting with [first], the rest zero. *)
Definition raw32 (first : list Z) : list Z :=
  firstn 32 (first ++ repeat 0 32).

(** A driver whose context is the index of the current mode.  Its
    [set_mode] refuses mode 2 with [-EIO] and keeps the mode it had;
    any other index becomes the current mode. *)
Definition abc_device : msensor_device Z :=
  {| type_id := 30;
     mode_info :=
       [ mk_mode "A" 0 2 MSENSOR_DATA_16 (raw32 [0x01; 0x00; 0xFF; 0xFF]);
         mk_mode "B" 1 1 MSENSOR_DATA_8 (raw32 [200]);
         mk_mode "C" 0 8 MSENSOR_DATA_32 (map Z.of_nat (seq 100 32)) ];
     get_mode := fun c => c;
     set_mode := fun c i => if i =? 2 then (c, -5) else (i, 0);
     write_data := fun c _ _ n => (c, n) |}.

(** The page sysfs hands to a read handler. *)
Definition zero_page : list Z := repeat 0 4096.

(** ** The remaining attributes *)

(** [sprintf(buf, "%s\n", s)]: the text written and its length. *)
Definition sprintf_s_nl (s : string) : Z * string :=
  let out := (s ++ String "010" EmptyString)%string in
  (Z.of_nat (String.length out), out).

Section Attributes.

Variable LONG_BITS : Z.
Variable context : Type.
Variable ms : msensor_device context.

(** [msensor_show_type_id] *)
Definition msensor_show_type_id (ctx : context) (buf : string) : Z * string :=
  sprintf_d_nl (type_id ms).

(** The macro [MSENSOR_SHOW_F(_name)]: [field] selects the member
    [_name].  The current mode is stored in a [u8] here, the bound in
    an [int], and handed to [msensor_ftoi] as a [uint]. *)
Definition MSENSOR_SHOW_F (field : msensor_mode_info -> Z)
           (ctx : context) (buf : string) : option (Z * string) :=
  let mode := to_uchar (get_mode ms ctx) in
  mi <- mode_at ms mode ;;
  let value := to_int (field mi) in
  let dp := decimals mi in
  v <- msensor_ftoi LONG_BITS (to_uint value) dp ;;
  Some (sprintf_d_nl v).

Definition msensor_show_raw_min := MSENSOR_SHOW_F raw_min.
Definition msensor_show_raw_max := MSENSOR_SHOW_F raw_max.
Definition msensor_show_pct_min := MSENSOR_SHOW_F pct_min.
Definition msensor_show_pct_max := MSENSOR_SHOW_F pct_max.
Definition msensor_show_si_min := MSENSOR_SHOW_F si_min.
Definition msensor_show_si_max := MSENSOR_SHOW_F si_max.

(** [msensor_show_si_units] *)
Definition msensor_show_si_units (ctx : context) (buf : string)
  : option (Z * string) :=
  let mode := get_mode ms ctx in
  mi <- mode_at ms mode ;;
  Some (sprintf_s_nl (units mi)).

(** [msensor_show_dp] *)
Definition msensor_show_dp (ctx : context) (buf : string)
  : option (Z * string) :=
  let mode := get_mode ms ctx in
  mi <- mode_at ms mode ;;
  Some (sprintf_d_nl (Z.of_nat (decimals mi))).

(** [msensor_show_num_values] *)
Definition msensor_show_num_values (ctx : context) (buf : string)
  : option (Z * string) :=
  let mode := get_mode ms ctx in
  mi <- mode_at ms mode ;;
  Some (sprintf_d_nl (data_sets mi)).

(** [msensor_show_bin_data_format] *)
Definition msensor_show_bin_data_format (ctx : context) (buf : string)
  : option (Z * string) :=
  let mode := get_mode ms ctx in
  mi <- mode_at ms mode ;;
  match format mi with
  | MSENSOR_DATA_8 => Some (sprintf_s_nl "s8")
  | MSENSOR_DATA_16 => Some (sprintf_s_nl "s16")
  | MSENSOR_DATA_32 => Some (sprintf_s_nl "s32")
  | MSENSOR_DATA_FLOAT => Some (sprintf_s_nl "float")
  end.

(** [msensor_write_bin_data] *)
Definition msensor_write_bin_data (ctx : context) (buf : list Z)
           (off count : Z) : context * Z :=
  write_data ms ctx buf off count.

End Attributes.

Arguments msensor_show_type_id {context} _ _ _.
Arguments MSENSOR_SHOW_F _ {context} _ _ _ _.
Arguments msensor_show_raw_min _ {context} _ _ _.
Arguments msensor_show_raw_max _ {context} _ _ _.
Arguments msensor_show_pct_min _ {context} _ _ _.
Arguments msensor_show_pct_max _ {context} _ _ _.
Arguments msensor_show_si_min _ {context} _ _ _.
Arguments msensor_show_si_max _ {context} _ _ _.
Arguments msensor_show_si_units {context} _ _ _.
Arguments msensor_show_dp {context} _ _ _.
Arguments msensor_show_num_values {context} _ _ _.
Arguments msensor_show_bin_data_format {context} _ _ _.
Arguments msensor_write_bin_data {context} _ _ _ _ _.

(** A signed 8-bit and a signed 32-bit number from their bytes. *)
Definition s8_of_byte (b0 : Z) : Z := if b0 <? 128 then b0 else b0 - 256.

Definition s32_of_bytes (b0 b1 b2 b3 : Z) : Z :=
  let u := b0 + 256 * b1 + 65536 * b2 + 16777216 * b3 in
  if u <? 2147483648 then u else u - 4294967296.

(** A device with one float mode of one decimal place, whose raw
    buffer and upper bound hold the float 100.0 and whose lower bound
    holds -50.0, and one mode of 8-bit values. *)
Definition float_device : msensor_device Z :=
  {| type_id := 29;
     mode_info :=
       [ {| name := "F"; raw_min := 0xC2480000; raw_max := 0x42C80000;
            pct_min := 0; pct_max := 0x42C80000;
            si_min := 0xC2480000; si_max := 0x42C80000;
            units := "cm"; decimals := 1; data_sets := 1;
            format := MSENSOR_DATA_FLOAT;
            raw_data := raw32 [0x00; 0x00; 0xC8; 0x42] |};
         mk_mode "B" 0 3 MSENSOR_DATA_8 (raw32 [200; 7; 127]) ];
     get_mode := fun c => c;
     set_mode := fun c i => (i, 0);
     write_data := fun c _ _ n => (c, n) |}.

(** The kernel's [sysfs_streq] (lib/string.c): the two strings are
    compared character by character; they match when they are equal
    or when one of them is the other followed by a single newline. *)
Fixpoint kernel_sysfs_streq (s1 s2 : string) : bool :=
  match s1, s2 with
  | EmptyString, EmptyString => true
  | EmptyString, String c r =>
      Ascii.eqb c "010" && match r with EmptyString => true | _ => false end
  | String c r, EmptyString =>
      Ascii.eqb c "010" && match r with EmptyString => true | _ => false end
  | String c1 r1, String c2 r2 =>
      if Ascii.eqb c1 c2 then kernel_sysfs_streq r1 r2 else false
  end.

(** What a match under [kernel_sysfs_streq] means. *)
Definition name_matches (buf n : string) : Prop :=
  buf = n
  \/ buf = (n ++ String "010" EmptyString)%string
  \/ (buf ++ String "010" EmptyString)%string = n.

(** ** Facts about the machine arithmetic *)


Lemma land_mant f : Z.land f 0x007FFFFF = f mod 2 ^ 23.
Proof. change 0x007FFFFF with (Z.ones 23). apply Z.land_ones. lia. Qed.

Lemma land_exp f : Z.shiftr (Z.land f 0x7F800000) 23 = (f / 2 ^ 23) mod 2 ^ 8.
Proof.
  change 0x7F800000 with (Z.shiftl (Z.ones 8) 23).
  rewrite Z.shiftr_land, Z.shiftr_shiftl_l by lia.
  change (23 - 23) with 0. rewrite Z.shiftl_0_r, Z.land_ones by lia.
  now rewrite Z.shiftr_div_pow2 by lia.
Qed.

Section CodecFacts.
Variable L : Z.
Hypothesis HL : 32 <= L.

Lemma pow2_L_split : 2 ^ L = 2 ^ 32 * 2 ^ (L - 32).
Proof. rewrite <- Z.pow_add_r by lia. f_equal. lia. Qed.

Lemma pow2_L_ge : 2 ^ 32 <= 2 ^ L.
Proof. apply Z.pow_le_mono_r; lia. Qed.

Lemma to_ulong_small x : 0 <= x < 2 ^ L -> to_ulong L x = x.
Proof. intros. apply Z.mod_small. assumption. Qed.

Lemma to_ulong_mod32 x : (to_ulong L x) mod 2 ^ 32 = x mod 2 ^ 32.
Proof.
  unfold to_ulong. rewrite pow2_L_split.
  rewrite Z.rem_mul_r by (try apply Z.pow_nonzero; try apply Z.pow_pos_nonneg; lia).
  rewrite (Z.mul_comm (2 ^ 32)), Z.mod_add by lia.
  apply Z.mod_mod. lia.
Qed.

Lemma to_int_to_ulong x : to_int (to_ulong L x) = to_int x.
Proof. unfold to_int. now rewrite to_ulong_mod32. Qed.

Lemma apply_sign_to_int s i : apply_sign L s i = to_int (s * i).
Proof.
  unfold apply_sign. rewrite to_int_to_ulong. unfold to_int.
  rewrite <- Z.mul_mod_idemp_l by lia.
  rewrite to_ulong_mod32.
  rewrite Z.mul_mod_idemp_l by lia. reflexivity.
Qed.

Lemma to_int_small x : - 2 ^ 31 <= x < 2 ^ 31 -> to_int x = x.
Proof.
  intros Hx. unfold to_int.
  destruct (Z.ltb_spec (x mod 2 ^ 32) (2 ^ 31)) as [H|H].
  - destruct (Z.neg_nonneg_cases x) as [Hn|Hp].
    + assert (E : x mod 2 ^ 32 = x + 2 ^ 32).
      { symmetry. apply Z.mod_unique with (q := -1); lia. }
      lia.
    + apply Z.mod_small. lia.
  - destruct (Z.neg_nonneg_cases x) as [Hn|Hp].
    + assert (E : x mod 2 ^ 32 = x + 2 ^ 32).
      { symmetry. apply Z.mod_unique with (q := -1); lia. }
      lia.
    + rewrite Z.mod_small in H by lia. lia.
Qed.

Lemma mul10_loop_mod dp i :
  mul10_loop L dp (to_ulong L i) = to_ulong L (i * 10 ^ Z.of_nat dp).
Proof.
  revert i. induction dp as [|dp IH]; intros i.
  - simpl. now rewrite Z.mul_1_r.
  - cbn [mul10_loop]. rewrite IH.
    unfold to_ulong. rewrite Nat2Z.inj_succ, Z.pow_succ_r by lia.
    assert (0 < 2 ^ L) by (apply Z.pow_pos_nonneg; lia).
    replace (i mod 2 ^ L * 10 * 10 ^ Z.of_nat dp)
      with (i mod 2 ^ L * (10 * 10 ^ Z.of_nat dp)) by ring.
    now rewrite Z.mul_mod_idemp_l by lia.
Qed.

Lemma mul10_loop_exact dp i :
  0 <= i -> i * 10 ^ Z.of_nat dp < 2 ^ L ->
  mul10_loop L dp i = i * 10 ^ Z.of_nat dp.
Proof.
  intros Hi Hb.
  assert (0 < 10 ^ Z.of_nat dp) by (apply Z.pow_pos_nonneg; lia).
  assert (i < 2 ^ L) by nia.
  rewrite <- (to_ulong_small i) at 1 by lia.
  rewrite mul10_loop_mod. apply to_ulong_small. nia.
Qed.


(** ** Facts about [msensor_ftoi] *)

Lemma float_exp_range f : 0 <= float_exp f < 256.
Proof. unfold float_exp, to_uchar. apply Z.mod_pos_bound. lia. Qed.

Lemma float_mant_range f : 2 ^ 23 <= float_mant f < 2 ^ 24.
Proof.
  unfold float_mant. rewrite land_mant.
  pose proof (Z.mod_pos_bound f (2 ^ 23)). lia.
Qed.

Lemma pow10_pos dp : 0 < 10 ^ Z.of_nat dp.
Proof. apply Z.pow_pos_nonneg; lia. Qed.

Lemma scaled_mant_pos f dp : 0 < scaled_mant f dp.
Proof.
  unfold scaled_mant. pose proof (float_mant_range f). pose proof (pow10_pos dp).
  nia.
Qed.

Lemma float_sign_cases f : float_sign f = 1 \/ float_sign f = -1.
Proof. unfold float_sign. destruct (_ =? _); auto. Qed.

Lemma to_int_congr x y : x mod 2 ^ 32 = y mod 2 ^ 32 -> to_int x = to_int y.
Proof. unfold to_int. now intros ->. Qed.

(** The mantissa after [i += 1 << 23] and the scaling loop. *)
Lemma ftoi_scaled f dp :
  mul10_loop L dp (to_ulong L (to_ulong L (Z.land f 0x007FFFFF) + Z.shiftl 1 23))
  = to_ulong L (scaled_mant f dp).
Proof.
  pose proof (float_mant_range f) as Hm. unfold float_mant in Hm.
  pose proof pow2_L_ge.
  change (Z.shiftl 1 23) with (2 ^ 23).
  rewrite (to_ulong_small (Z.land f 8388607)) by lia.
  rewrite mul10_loop_mod. reflexivity.
Qed.

(** [msensor_ftoi] in terms of the three fields of its argument. *)
Lemma ftoi_unfold f dp :
  msensor_ftoi L f dp =
  let s := float_sign f in
  let e := float_exp f in
  let i := to_ulong L (scaled_mant f dp) in
  if e =? 0 then Some 0
  else if e =? 255 then Some (if s =? 1 then INT_MAX else INT_MIN)
  else if e <? 150 then
    if 150 - e <? L then
      Some (apply_sign L s
              (Z.shiftr
                 (to_ulong L (i + Z.shiftr (i mod to_ulong L (Z.shiftl 1 (150 - e))) 1))
                 (150 - e)))
    else None
  else
    if e - 150 <? L then Some (apply_sign L s (to_ulong L (Z.shiftl i (e - 150))))
    else None.
Proof.
  unfold msensor_ftoi. rewrite ftoi_scaled. reflexivity.
Qed.

Lemma ftoi_zero_exp f dp : float_exp f = 0 -> msensor_ftoi L f dp = Some 0.
Proof. intros E. rewrite ftoi_unfold. cbv zeta. now rewrite E. Qed.

Lemma ftoi_inf_nan f dp :
  float_exp f = 255 ->
  msensor_ftoi L f dp = Some (if float_sign f =? 1 then INT_MAX else INT_MIN).
Proof. intros E. rewrite ftoi_unfold. cbv zeta. now rewrite E. Qed.

(** Shifting left: the result is the low 32 bits of the signed product,
    whatever was lost on the way. *)
Lemma ftoi_shift_left f dp :
  150 <= float_exp f < 255 -> float_exp f - 150 < L ->
  msensor_ftoi L f dp
  = Some (to_int (float_sign f * (scaled_mant f dp * 2 ^ (float_exp f - 150)))).
Proof.
  intros He Hk. rewrite ftoi_unfold. cbv zeta.
  destruct (Z.eqb_spec (float_exp f) 0); [lia|].
  destruct (Z.eqb_spec (float_exp f) 255); [lia|].
  destruct (Z.ltb_spec (float_exp f) 150); [lia|].
  destruct (Z.ltb_spec (float_exp f - 150) L); [|lia].
  f_equal. rewrite apply_sign_to_int. apply to_int_congr.
  rewrite Z.shiftl_mul_pow2 by lia.
  rewrite <- (Z.mul_mod_idemp_r (float_sign f)) by lia.
  rewrite to_ulong_mod32.
  rewrite <- (Z.mul_mod_idemp_l (to_ulong L _)) by lia.
  rewrite to_ulong_mod32.
  rewrite (Z.mul_mod_idemp_l (scaled_mant f dp)) by lia.
  now rewrite Z.mul_mod_idemp_r by lia.
Qed.

(** Shifting right, when the scaled mantissa and the rounding addend
    fit in an [unsigned long]. *)
Lemma ftoi_shift_right f dp :
  0 < float_exp f < 150 -> 150 - float_exp f < L ->
  scaled_mant f dp + scaled_mant f dp / 2 < 2 ^ L ->
  msensor_ftoi L f dp = Some (to_int (float_sign f * ideal_magnitude f dp)).
Proof.
  intros He Hk Hfit. rewrite ftoi_unfold. cbv zeta.
  destruct (Z.eqb_spec (float_exp f) 0); [lia|].
  destruct (Z.eqb_spec (float_exp f) 255); [lia|].
  destruct (Z.ltb_spec (float_exp f) 150); [|lia].
  destruct (Z.ltb_spec (150 - float_exp f) L); [|lia].
  f_equal. rewrite apply_sign_to_int. f_equal. f_equal.
  unfold ideal_magnitude.
  destruct (Z.ltb_spec (float_exp f) 150); [|lia].
  pose proof (scaled_mant_pos f dp) as Hpos.
  set (I := scaled_mant f dp) in *.
  set (k := 150 - float_exp f) in *.
  assert (0 < 2 ^ k) by (apply Z.pow_pos_nonneg; lia).
  assert (2 ^ k < 2 ^ L) by (apply Z.pow_lt_mono_r; lia).
  assert (0 <= I / 2) by (apply Z.div_pos; lia).
  rewrite (to_ulong_small I) by lia.
  rewrite Z.shiftl_mul_pow2, Z.mul_1_l by lia.
  rewrite (to_ulong_small (2 ^ k)) by lia.
  pose proof (Z.mod_pos_bound I (2 ^ k) ltac:(lia)) as Hm.
  assert (I mod 2 ^ k <= I) by (apply Z.mod_le; lia).
  rewrite (Z.shiftr_div_pow2 _ 1) by lia. change (2 ^ 1) with 2.
  assert (0 <= (I mod 2 ^ k) / 2 <= I / 2).
  { split; [apply Z.div_pos; lia | apply Z.div_le_mono; lia]. }
  rewrite to_ulong_small by lia.
  now rewrite Z.shiftr_div_pow2 by lia.
Qed.

Lemma ideal_magnitude_nonneg f dp : 0 <= ideal_magnitude f dp.
Proof.
  unfold ideal_magnitude. pose proof (scaled_mant_pos f dp).
  pose proof (float_exp_range f).
  destruct (Z.ltb_spec (float_exp f) 150).
  - assert (0 < 2 ^ (150 - float_exp f)) by (apply Z.pow_pos_nonneg; lia).
    apply Z.div_pos; [|lia].
    pose proof (Z.mod_pos_bound (scaled_mant f dp) (2 ^ (150 - float_exp f)) ltac:(lia)).
    assert (0 <= (scaled_mant f dp mod 2 ^ (150 - float_exp f)) / 2)
      by (apply Z.div_pos; lia).
    lia.
  - assert (0 < 2 ^ (float_exp f - 150)) by (apply Z.pow_pos_nonneg; lia). nia.
Qed.

(** The conversion of a normal number that does not overflow: the
    sign times the magnitude. *)
Lemma ftoi_no_overflow f dp :
  0 < float_exp f < 255 ->
  (float_exp f < 150 ->
   150 - float_exp f < L /\ scaled_mant f dp + scaled_mant f dp / 2 < 2 ^ L) ->
  ideal_magnitude f dp <= INT_MAX ->
  msensor_ftoi L f dp = Some (float_sign f * ideal_magnitude f dp).
Proof.
  intros He Hfit Hmag.
  pose proof (ideal_magnitude_nonneg f dp) as H0.
  assert (Hs : to_int (float_sign f * ideal_magnitude f dp)
               = float_sign f * ideal_magnitude f dp).
  { apply to_int_small. unfold INT_MAX in Hmag.
    destruct (float_sign_cases f) as [-> | ->]; lia. }
  destruct (Z.lt_ge_cases (float_exp f) 150) as [Hlo|Hhi].
  - destruct (Hfit Hlo). rewrite ftoi_shift_right by lia. now rewrite Hs.
  - assert (Hk : float_exp f - 150 < L).
    { unfold ideal_magnitude in Hmag.
      destruct (Z.ltb_spec (float_exp f) 150); [lia|].
      pose proof (float_mant_range f). pose proof (pow10_pos dp).
      unfold scaled_mant, INT_MAX in Hmag.
      destruct (Z.lt_ge_cases (float_exp f - 150) 32); [lia|].
      assert (2 ^ 32 <= 2 ^ (float_exp f - 150)) by (apply Z.pow_le_mono_r; lia).
      nia. }
    rewrite ftoi_shift_left by lia.
    unfold ideal_magnitude in *.
    destruct (Z.ltb_spec (float_exp f) 150); [lia|]. now rewrite Hs.
Qed.

(** ** Facts about [msensor_itof] *)

Lemma div10_loop_exact dp f : 0 <= f -> div10_loop dp f = f / 10 ^ Z.of_nat dp.
Proof.
  revert f. induction dp as [|dp IH]; intros f Hf.
  - simpl. now rewrite Z.div_1_r.
  - cbn [div10_loop]. rewrite IH by (apply Z.div_pos; lia).
    rewrite Nat2Z.inj_succ, Z.pow_succ_r by lia.
    rewrite Z.div_div by (try apply pow10_pos; lia). reflexivity.
Qed.

Lemma below_2_24 f : f < 2 ^ 24 -> (f >=? Z.shiftl 1 24) = false.
Proof.
  intros H. change (Z.shiftl 1 24) with (2 ^ 24). rewrite Z.geb_leb.
  apply Z.leb_gt. exact H.
Qed.

Lemma above_2_24 f : 2 ^ 24 <= f -> (f >=? Z.shiftl 1 24) = true.
Proof.
  intros H. change (Z.shiftl 1 24) with (2 ^ 24). rewrite Z.geb_leb.
  apply Z.leb_le. exact H.
Qed.

Lemma below_2_23 f : f < 2 ^ 23 -> (f <? Z.shiftl 1 23) = true.
Proof. intros H. change (Z.shiftl 1 23) with (2 ^ 23). apply Z.ltb_lt. exact H. Qed.

Lemma above_2_23 f : 2 ^ 23 <= f -> (f <? Z.shiftl 1 23) = false.
Proof. intros H. change (Z.shiftl 1 23) with (2 ^ 23). apply Z.ltb_ge. exact H. Qed.

(** The first normalisation loop halves [f] until it is below [2^24];
    it always comes to an end. *)
Lemma norm_down_spec (n : nat) : forall (fuel : nat) f e,
  (n <= fuel)%nat -> 0 <= f < 2 ^ (24 + Z.of_nat n) ->
  0 <= e -> e + Z.of_nat n < 256 ->
  exists k, 0 <= k <= Z.of_nat n /\
            norm_down fuel f e = Some (f / 2 ^ k, e + k) /\
            f / 2 ^ k < 2 ^ 24 /\ (k = 0 \/ 2 ^ 23 <= f / 2 ^ k).
Proof.
  induction n as [|n IH]; intros fuel f e Hfuel Hf He Hen.
  - exists 0. rewrite Z.div_1_r, Z.add_0_r.
    change (24 + Z.of_nat 0) with 24 in Hf.
    assert (E : (f >=? Z.shiftl 1 24) = false) by (apply below_2_24; lia).
    destruct fuel; cbn [norm_down]; rewrite E; repeat split; try lia; auto.
  - destruct (Z.lt_ge_cases f (2 ^ 24)) as [Hlt|Hge].
    + exists 0. rewrite Z.div_1_r, Z.add_0_r.
      assert (E : (f >=? Z.shiftl 1 24) = false) by (apply below_2_24; lia).
      destruct fuel; cbn [norm_down]; rewrite E; repeat split; try lia; auto.
    + destruct fuel as [|fuel]; [lia|].
      assert (E : (f >=? Z.shiftl 1 24) = true) by (apply above_2_24; lia).
      cbn [norm_down]. rewrite E.
      rewrite Z.shiftr_div_pow2 by lia. change (2 ^ 1) with 2.
      assert (Hhalf : 0 <= f / 2 < 2 ^ (24 + Z.of_nat n)).
      { split; [apply Z.div_pos; lia|].
        apply Z.div_lt_upper_bound; [lia|].
        rewrite <- Z.pow_succ_r by lia.
        replace (Z.succ (24 + Z.of_nat n)) with (24 + Z.of_nat (S n)) by lia.
        lia. }
      unfold to_uchar. rewrite (Z.mod_small (e + 1)) by lia.
      destruct (IH fuel (f / 2) (e + 1)) as (k & Hk & Hrun & Hlt & Hnorm); try lia.
      exists (k + 1).
      assert (Ediv : f / 2 ^ (k + 1) = f / 2 / 2 ^ k).
      { rewrite Z.pow_add_r, Z.mul_comm by lia. change (2 ^ 1) with 2.
        rewrite Z.div_div by (try apply Z.pow_pos_nonneg; lia). reflexivity. }
      rewrite Ediv. repeat split; try lia.
      * rewrite Hrun. f_equal. f_equal. lia.
      * right. destruct Hnorm as [-> | Hn]; [|exact Hn].
        rewrite Z.div_1_r. apply Z.div_le_lower_bound; lia.
Qed.

(** The second loop doubles a non-zero [f] until bit 23 is set. *)
Lemma norm_up_spec (n : nat) : forall (fuel : nat) f e,
  (n <= fuel)%nat -> 0 < f -> 2 ^ 23 <= f * 2 ^ Z.of_nat n ->
  Z.of_nat n <= e < 256 ->
  exists k, 0 <= k <= Z.of_nat n /\
            norm_up L fuel f e = Some (f * 2 ^ k, e - k) /\
            2 ^ 23 <= f * 2 ^ k /\ (k = 0 \/ f * 2 ^ k < 2 ^ 24).
Proof.
  induction n as [|n IH]; intros fuel f e Hfuel Hf Hn He.
  - exists 0. rewrite Z.mul_1_r, Z.sub_0_r.
    change (2 ^ Z.of_nat 0) with 1 in Hn.
    assert (E : (f <? Z.shiftl 1 23) = false) by (apply above_2_23; lia).
    destruct fuel; cbn [norm_up]; rewrite E; repeat split; try lia; auto.
  - destruct (Z.lt_ge_cases f (2 ^ 23)) as [Hlt|Hge].
    + destruct fuel as [|fuel]; [lia|].
      assert (E : (f <? Z.shiftl 1 23) = true) by (apply below_2_23; lia).
      cbn [norm_up]. rewrite E.
      rewrite Z.shiftl_mul_pow2 by lia. change (2 ^ 1) with 2.
      pose proof pow2_L_ge.
      rewrite to_ulong_small by lia.
      unfold to_uchar. rewrite (Z.mod_small (e - 1)) by lia.
      rewrite Nat2Z.inj_succ, Z.pow_succ_r in Hn by lia.
      destruct (IH fuel (f * 2) (e - 1)) as (k & Hk & Hrun & Hlo & Hnorm); try lia.
      exists (k + 1).
      assert (Emul : f * 2 ^ (k + 1) = f * 2 * 2 ^ k).
      { rewrite Z.pow_add_r by lia. change (2 ^ 1) with 2. ring. }
      rewrite Emul. repeat split; try lia.
      * rewrite Hrun. f_equal. f_equal. lia.
      * right. destruct Hnorm as [-> | Hk']; [|exact Hk'].
        rewrite Z.mul_1_r. lia.
    + exists 0. rewrite Z.mul_1_r, Z.sub_0_r.
      assert (E : (f <? Z.shiftl 1 23) = false) by (apply above_2_23; lia).
      destruct fuel; cbn [norm_up]; rewrite E; repeat split; try lia; auto.
Qed.

(** On a zero mantissa the second loop never stops. *)
Lemma norm_up_zero (fuel : nat) : forall e, norm_up L fuel 0 e = None.
Proof.
  induction fuel as [|fuel IH]; intros e; [reflexivity|].
  cbn [norm_up]. change (0 <? Z.shiftl 1 23) with true. cbv iota.
  rewrite Z.shiftl_0_l. unfold to_ulong at 1. rewrite Z.mod_0_l.
  - apply IH.
  - apply Z.pow_nonzero; lia.
Qed.

(** ** The bit layout of the float *)

Lemma land_sign f :
  0 <= f < 2 ^ 32 -> (Z.land f 0x80000000 =? 0) = (f <? 2 ^ 31).
Proof.
  intros Hf.
  assert (E : Z.shiftr (Z.land f 0x80000000) 31 = f / 2 ^ 31).
  { change 0x80000000 with (Z.shiftl (Z.ones 1) 31).
    rewrite Z.shiftr_land, Z.shiftr_shiftl_l by lia.
    change (31 - 31) with 0. rewrite Z.shiftl_0_r, Z.land_ones by lia.
    rewrite Z.shiftr_div_pow2 by lia.
    apply Z.mod_small. split; [apply Z.div_pos; lia|].
    apply Z.div_lt_upper_bound; lia. }
  destruct (Z.ltb_spec f (2 ^ 31)) as [Hlt|Hge].
  - apply Z.eqb_eq.
    rewrite Z.div_small in E by lia.
    apply Z.bits_inj'. intros n Hn. rewrite Z.bits_0.
    destruct (Z.lt_ge_cases n 31) as [Hlo|Hhi].
    + rewrite Z.land_spec. change 0x80000000 with (2 ^ 31).
      rewrite (Z.pow2_bits_false 31 n) by lia. apply andb_false_r.
    + replace n with ((n - 31) + 31) by lia.
      rewrite <- Z.shiftr_spec by lia. rewrite E. apply Z.bits_0.
  - apply Z.eqb_neq. intros E0. rewrite E0, Z.shiftr_0_l in E.
    symmetry in E. apply Z.div_small_iff in E; lia.
Qed.

Lemma land_low_shiftl a c n :
  0 <= n -> 0 <= a < 2 ^ n -> Z.land a (Z.shiftl c n) = 0.
Proof.
  intros Hn Ha. apply Z.bits_inj'. intros i Hi.
  rewrite Z.land_spec, Z.bits_0.
  destruct (Z.lt_ge_cases i n).
  - rewrite Z.shiftl_spec_low by lia. apply andb_false_r.
  - rewrite <- (Z.mod_small a (2 ^ n)) by lia.
    now rewrite Z.mod_pow2_bits_high by lia.
Qed.

Lemma lor_low_shiftl a c n :
  0 <= n -> 0 <= a < 2 ^ n -> Z.lor a (Z.shiftl c n) = a + c * 2 ^ n.
Proof.
  intros Hn Ha.
  rewrite <- Z.lxor_lor, <- Z.add_nocarry_lxor by (apply land_low_shiftl; lia).
  now rewrite Z.shiftl_mul_pow2 by lia.
Qed.

(** The word that [msensor_itof] assembles from mantissa, exponent and
    sign. *)
Lemma itof_encode m e (neg : bool) :
  0 <= m < 2 ^ 23 -> 0 <= e < 256 ->
  to_uint (Z.lor (if neg then Z.lor m 0x80000000 else m) (Z.shiftl e 23))
  = m + e * 2 ^ 23 + (if neg then 2 ^ 31 else 0).
Proof.
  intros Hm He. unfold to_uint.
  assert (E : Z.lor m (Z.shiftl e 23) = m + e * 2 ^ 23)
    by (apply lor_low_shiftl; lia).
  destruct neg.
  - rewrite <- Z.lor_assoc, (Z.lor_comm 0x80000000), Z.lor_assoc, E.
    change 0x80000000 with (Z.shiftl 1 31).
    rewrite lor_low_shiftl by lia. apply Z.mod_small. lia.
  - rewrite E, Z.add_0_r. apply Z.mod_small. lia.
Qed.

(** Reading the three fields back. *)
Lemma decode_fields m e (neg : bool) :
  0 <= m < 2 ^ 23 -> 0 <= e < 256 ->
  let bits := m + e * 2 ^ 23 + (if neg then 2 ^ 31 else 0) in
  float_sign bits = (if neg then -1 else 1)
  /\ float_exp bits = e
  /\ float_mant bits = m + 2 ^ 23.
Proof.
  intros Hm He bits.
  assert (Eb : bits = m + (e + (if neg then 256 else 0)) * 2 ^ 23)
    by (subst bits; destruct neg; lia).
  assert (Hb : 0 <= bits < 2 ^ 32) by (subst bits; destruct neg; lia).
  repeat split.
  - unfold float_sign. rewrite land_sign by exact Hb.
    subst bits. destruct neg.
    + destruct (Z.ltb_spec (m + e * 2 ^ 23 + 2 ^ 31) (2 ^ 31)); [lia|reflexivity].
    + destruct (Z.ltb_spec (m + e * 2 ^ 23 + 0) (2 ^ 31)); [reflexivity|lia].
  - unfold float_exp, to_uchar. rewrite land_exp, Eb.
    rewrite Z.div_add, Z.div_small by lia.
    change (2 ^ 8) with 256. rewrite Z.mod_mod by lia.
    destruct neg.
    + replace (0 + (e + 256)) with (e + 1 * 256) by lia.
      rewrite Z.mod_add by lia. apply Z.mod_small; lia.
    + replace (0 + (e + 0)) with e by lia. apply Z.mod_small; lia.
  - unfold float_mant. rewrite land_mant, Eb.
    rewrite Z.mod_add by lia. rewrite Z.mod_small by lia. reflexivity.
Qed.

(** The result of [msensor_itof] on a non-zero input whose mantissa
    survives the division: a normalised mantissa [m] with exponent
    [e], obtained from [F1 = |v| * 2^23 / 10^dp] by halving or by
    doubling. *)
Lemma itof_spec (fuel : nat) v dp :
  (30 <= fuel)%nat ->
  - 2 ^ 31 < v < 2 ^ 31 -> v <> 0 ->
  Z.abs v * 2 ^ 23 < 2 ^ L ->
  10 ^ Z.of_nat dp <= Z.abs v * 2 ^ 23 ->
  exists m e,
    msensor_itof L fuel v dp
    = Some (m - 2 ^ 23 + e * 2 ^ 23 + (if v <? 0 then 2 ^ 31 else 0))
    /\ 2 ^ 23 <= m < 2 ^ 24 /\ 0 < e < 255
    /\ ((exists k, 0 <= k /\ e = 127 + k
                   /\ m = Z.abs v * 2 ^ 23 / 10 ^ Z.of_nat dp / 2 ^ k)
        \/ (exists k, 0 <= k /\ e = 127 - k
                      /\ m = Z.abs v * 2 ^ 23 / 10 ^ Z.of_nat dp * 2 ^ k)).
Proof.
  intros Hfuel Hv Hnz Hfit Hdp.
  pose proof pow2_L_ge as HLge. pose proof (pow10_pos dp) as H10.
  set (F1 := Z.abs v * 2 ^ 23 / 10 ^ Z.of_nat dp).
  assert (HF1 : 1 <= F1 < 2 ^ (24 + Z.of_nat 30)).
  { subst F1. split.
    - apply Z.div_le_lower_bound; lia.
    - apply Z.div_lt_upper_bound; [lia|].
      change (2 ^ (24 + Z.of_nat 30)) with (2 ^ 54). nia. }
  assert (Eabs : to_ulong L (to_int (v * (if v <? 0 then -1 else 1))) = Z.abs v).
  { destruct (Z.ltb_spec v 0).
    - rewrite to_int_small by lia. rewrite to_ulong_small by lia. lia.
    - rewrite to_int_small by lia. rewrite to_ulong_small by lia. lia. }
  unfold msensor_itof. rewrite Eabs.
  destruct (Z.eqb_spec v 0) as [|_]; [contradiction|].
  rewrite Z.shiftl_mul_pow2 by lia.
  rewrite to_ulong_small by lia.
  rewrite div10_loop_exact by lia. fold F1.
  destruct (norm_down_spec 30 fuel F1 127) as (k1 & Hk1 & Hrun1 & Hlt1 & Hn1);
    try lia.
  rewrite Hrun1. cbn [obind].
  assert (Hup : exists k2 m, 0 <= k2 <= 23
            /\ norm_up L fuel (F1 / 2 ^ k1) (127 + k1) = Some (m, 127 + k1 - k2)
            /\ 2 ^ 23 <= m < 2 ^ 24
            /\ ((k2 = 0 /\ m = F1 / 2 ^ k1) \/ (k1 = 0 /\ m = F1 * 2 ^ k2))).
  { destruct Hn1 as [-> | Hnorm].
    - rewrite Z.div_1_r in *. rewrite Z.add_0_r.
      destruct (norm_up_spec 23 fuel F1 127) as (k2 & Hk2 & Hrun2 & Hlo2 & Hn2);
        try lia.
      exists k2, (F1 * 2 ^ k2). repeat split; try lia; auto.
      destruct Hn2 as [-> | ?]; [|lia]. rewrite Z.mul_1_r. lia.
    - destruct (norm_up_spec 0 fuel (F1 / 2 ^ k1) (127 + k1))
        as (k2 & Hk2 & Hrun2 & Hlo2 & Hn2); try lia.
      assert (k2 = 0) by lia. subst k2.
      rewrite Z.mul_1_r in *.
      exists 0, (F1 / 2 ^ k1). repeat split; try lia; auto. }
  destruct Hup as (k2 & m & Hk2 & Hrun2 & Hm & Hcase).
  rewrite Hrun2. cbn [obind].
  change (Z.shiftl 1 23) with (2 ^ 23).
  rewrite to_ulong_small by lia.
  exists m, (127 + k1 - k2). repeat split; try lia.
  - f_equal.
    replace (if (if v <? 0 then -1 else 1) =? -1
             then Z.lor (m - 2 ^ 23) 0x80000000 else m - 2 ^ 23)
      with (if v <? 0 then Z.lor (m - 2 ^ 23) 0x80000000 else m - 2 ^ 23)
      by (destruct (v <? 0); reflexivity).
    apply itof_encode; lia.
  - destruct Hcase as [[-> ->] | [-> ->]].
    + left. exists k1. repeat split; try lia.
    + right. exists k2. repeat split; try lia.
Qed.

(** ** Arithmetic of the round trip *)

(** The rounding step of [msensor_ftoi] stays between the two integers
    that enclose [I / 2^k]. *)
Lemma half_remainder_round I k a :
  0 <= k -> 0 <= I -> (a - 1) * 2 ^ k <= I <= a * 2 ^ k ->
  a - 1 <= (I + (I mod 2 ^ k) / 2) / 2 ^ k <= a.
Proof.
  intros Hk HI [Hlo Hhi].
  assert (HP : 0 < 2 ^ k) by (apply Z.pow_pos_nonneg; lia).
  pose proof (Z.mod_pos_bound I (2 ^ k) HP) as Hr.
  assert (Hh : 0 <= (I mod 2 ^ k) / 2 <= I mod 2 ^ k).
  { split; [apply Z.div_pos; lia|].
    apply Z.div_le_upper_bound; lia. }
  split.
  - apply Z.div_le_lower_bound; lia.
  - apply Z.lt_succ_r. apply Z.div_lt_upper_bound; lia.
Qed.

(** After halving: the scaled mantissa is within one unit of [a]. *)
Lemma down_bounds a D k m :
  1 <= a < 2 ^ 23 -> 1 <= D -> 0 <= k ->
  m = a * 2 ^ 23 / D / 2 ^ k -> 2 ^ 23 <= m ->
  k < 23 /\ (a - 1) * 2 ^ (23 - k) <= m * D <= a * 2 ^ (23 - k).
Proof.
  intros Ha HD Hk Hm Hnorm.
  set (A := a * 2 ^ 23) in *. set (F1 := A / D) in *.
  assert (HP : 0 < 2 ^ k) by (apply Z.pow_pos_nonneg; lia).
  set (P := 2 ^ k) in *.
  pose proof (Z.mul_div_le A D ltac:(lia)) as H1. fold F1 in H1.
  pose proof (Z.mul_succ_div_gt A D ltac:(lia)) as H2. fold F1 in H2.
  pose proof (Z.mul_div_le F1 P HP) as H3. rewrite <- Hm in H3.
  pose proof (Z.mul_succ_div_gt F1 P HP) as H4. rewrite <- Hm in H4.
  assert (HPD : P * D <= a).
  { assert (2 ^ 23 * (P * D) <= m * (P * D)) by (apply Z.mul_le_mono_nonneg_r; nia).
    assert (m * (P * D) <= F1 * D) by nia.
    subst A. nia. }
  assert (Hk23 : k < 23).
  { apply (Z.pow_lt_mono_r_iff 2); try lia; try (fold P; nia). }
  split; [exact Hk23|].
  assert (HS : 0 < 2 ^ (23 - k)) by (apply Z.pow_pos_nonneg; lia).
  assert (HPS : P * 2 ^ (23 - k) = 2 ^ 23).
  { unfold P. rewrite <- Z.pow_add_r by lia. f_equal. lia. }
  set (S := 2 ^ (23 - k)) in *.
  split.
  - apply (Z.mul_le_mono_pos_r _ _ P HP).
    replace ((a - 1) * S * P) with (A - 2 ^ 23) by (subst A; nia).
    assert (F1 * D - P * D + D <= m * D * P) by nia.
    lia.
  - apply (Z.mul_le_mono_pos_r _ _ P HP).
    replace (a * S * P) with A by (subst A; nia).
    nia.
Qed.

(** After doubling. *)
Lemma up_bounds a D k m :
  1 <= a -> 1 <= D <= 2 ^ 23 -> 0 <= k ->
  m = a * 2 ^ 23 / D * 2 ^ k ->
  (a - 1) * 2 ^ (23 + k) <= m * D <= a * 2 ^ (23 + k).
Proof.
  intros Ha HD Hk Hm.
  set (A := a * 2 ^ 23) in *. set (F1 := A / D) in *.
  assert (HP : 0 < 2 ^ k) by (apply Z.pow_pos_nonneg; lia).
  rewrite Z.pow_add_r by lia.
  set (P := 2 ^ k) in *.
  pose proof (Z.mul_div_le A D ltac:(lia)) as H1. fold F1 in H1.
  pose proof (Z.mul_succ_div_gt A D ltac:(lia)) as H2. fold F1 in H2.
  subst m. split.
  - replace ((a - 1) * (2 ^ 23 * P)) with ((A - 2 ^ 23) * P) by (subst A; ring).
    replace (F1 * P * D) with (F1 * D * P) by ring.
    apply Z.mul_le_mono_nonneg_r; lia.
  - replace (a * (2 ^ 23 * P)) with (A * P) by (subst A; ring).
    replace (F1 * P * D) with (F1 * D * P) by ring.
    apply Z.mul_le_mono_nonneg_r; lia.
Qed.

(** After doubling, the shift count of the way back is below the
    width of [unsigned long]. *)
Lemma up_shift_fits a D k m :
  1 <= a -> 1 <= D -> 3 * D <= 2 ^ 23 -> 0 <= k ->
  m = a * 2 ^ 23 / D * 2 ^ k -> m < 2 ^ 24 ->
  3 * 2 ^ 23 * D <= 2 ^ L ->
  23 + k < L.
Proof.
  intros Ha HD HD3 Hk Hm Hlt HfitL.
  set (A := a * 2 ^ 23) in *. set (F1 := A / D) in *.
  assert (HP : 0 < 2 ^ k) by (apply Z.pow_pos_nonneg; lia).
  pose proof (Z.mul_succ_div_gt A D ltac:(lia)) as H2. fold F1 in H2.
  assert (HF1 : 2 <= F1).
  { unfold F1. apply Z.div_le_lower_bound; [lia|]. subst A. nia. }
  apply (Z.pow_lt_mono_r_iff 2); try lia.
  rewrite Z.pow_add_r by lia.
  set (P := 2 ^ k) in *.
  assert (2 ^ 23 * P <= A * P) by (subst A; nia).
  assert (A * P < (F1 + 1) * D * P) by nia.
  assert (2 * ((F1 + 1) * D * P) <= 3 * (F1 * P) * D) by nia.
  assert (3 * (F1 * P) * D < 3 * 2 ^ 24 * D) by nia.
  lia.
Qed.

(** ** The round trip *)

Lemma pow10_le_1000 dp : (dp <= 3)%nat -> 1 <= 10 ^ Z.of_nat dp <= 1000.
Proof.
  intros Hdp. pose proof (pow10_pos dp). split; [lia|].
  change 1000 with (10 ^ 3). apply Z.pow_le_mono_r; lia.
Qed.

(** The magnitude that comes back from the float built for [v]. *)
Lemma roundtrip_magnitude (fuel : nat) v dp :
  (30 <= fuel)%nat -> (dp <= 3)%nat ->
  - 2 ^ 23 < v < 2 ^ 23 -> v <> 0 ->
  Z.abs v * 2 ^ 23 < 2 ^ L ->
  3 * 2 ^ 23 * 10 ^ Z.of_nat dp <= 2 ^ L ->
  exists bits mag,
    msensor_itof L fuel v dp = Some bits
    /\ msensor_ftoi L bits dp = Some ((if v <? 0 then -1 else 1) * mag)
    /\ Z.abs v - 1 <= mag <= Z.abs v.
Proof.
  intros Hfuel Hdp Hv Hnz Hfit HfitD.
  pose proof (pow10_le_1000 dp Hdp) as HD.
  destruct (itof_spec fuel v dp) as (m & e & Hrun & Hm & He & Hcase); try lia.
  exists (m - 2 ^ 23 + e * 2 ^ 23 + (if v <? 0 then 2 ^ 31 else 0)).
  exists (ideal_magnitude
            (m - 2 ^ 23 + e * 2 ^ 23 + (if v <? 0 then 2 ^ 31 else 0)) dp).
  destruct (decode_fields (m - 2 ^ 23) e (v <? 0)) as (Hs & Hexp & Hmant);
    try lia.
  cbv zeta in Hs, Hexp, Hmant.
  set (bits := m - 2 ^ 23 + e * 2 ^ 23 + (if v <? 0 then 2 ^ 31 else 0)) in *.
  replace (m - 2 ^ 23 + 2 ^ 23) with m in Hmant by lia.
  set (a := Z.abs v) in *. set (D := 10 ^ Z.of_nat dp) in *.
  assert (Ha : 1 <= a < 2 ^ 23) by (subst a; lia).
  assert (HI : scaled_mant bits dp = m * D) by (unfold scaled_mant; now rewrite Hmant).
  assert (Hhalf : m * D + m * D / 2 < 2 ^ L).
  { pose proof (Z.mul_div_le (m * D) 2 ltac:(lia)). nia. }
  (* the bounds on the scaled mantissa and on the shift count *)
  assert (Hb : e < 150 /\ 150 - e < L
               /\ (a - 1) * 2 ^ (150 - e) <= m * D <= a * 2 ^ (150 - e)).
  { destruct Hcase as [(k & Hk & -> & Hmk) | (k & Hk & -> & Hmk)].
    - destruct (down_bounds a D k m) as (Hk23 & Hbnd); try lia.
      replace (150 - (127 + k)) with (23 - k) by lia.
      repeat split; try lia.
    - pose proof (up_bounds a D k m ltac:(lia) ltac:(lia) Hk Hmk) as Hbnd.
      pose proof (up_shift_fits a D k m ltac:(lia) ltac:(lia) ltac:(lia) Hk Hmk
                    ltac:(lia) HfitD) as Hsh.
      replace (150 - (127 - k)) with (23 + k) by lia.
      repeat split; try lia. }
  destruct Hb as (He150 & Hsh & Hbnd).
  assert (Hmag : a - 1 <= ideal_magnitude bits dp <= a).
  { unfold ideal_magnitude. rewrite Hexp, HI.
    destruct (Z.ltb_spec e 150); [|lia].
    apply half_remainder_round; try lia; nia. }
  repeat split; try lia.
  - exact Hrun.
  - rewrite ftoi_no_overflow.
    + now rewrite Hs.
    + lia.
    + intros _. rewrite Hexp, HI. split; lia.
    + unfold INT_MAX. lia.
Qed.

(** The second loop of [msensor_itof] is entered with a zero mantissa
    as soon as the division by ten has eaten [|v| * 2^23]: the
    conversion then runs for ever. *)
Lemma itof_diverges_small (fuel : nat) v dp :
  - 2 ^ 31 < v < 2 ^ 31 -> v <> 0 ->
  Z.abs v * 2 ^ 23 < 2 ^ L ->
  Z.abs v * 2 ^ 23 < 10 ^ Z.of_nat dp ->
  msensor_itof L fuel v dp = None.
Proof.
  intros Hv Hnz Hfit Hsmall.
  pose proof pow2_L_ge as HLge.
  assert (Eabs : to_ulong L (to_int (v * (if v <? 0 then -1 else 1))) = Z.abs v).
  { destruct (Z.ltb_spec v 0).
    - rewrite to_int_small by lia. rewrite to_ulong_small by lia. lia.
    - rewrite to_int_small by lia. rewrite to_ulong_small by lia. lia. }
  unfold msensor_itof. rewrite Eabs.
  destruct (Z.eqb_spec v 0) as [|_]; [contradiction|].
  rewrite Z.shiftl_mul_pow2 by lia.
  rewrite to_ulong_small by lia.
  rewrite div10_loop_exact by lia.
  rewrite Z.div_small by lia.
  assert (E : norm_down fuel 0 127 = Some (0, 127)) by (destruct fuel; reflexivity).
  rewrite E. cbn [obind]. now rewrite norm_up_zero.
Qed.

End CodecFacts.

(** ** Properties of the codec *)

(** What the rounding step of [msensor_ftoi] does: the quotient goes
    up by one exactly when the remainder plus its half reaches the
    divisor, that is from two thirds of a unit on. *)
Lemma ftoi_rounding_threshold I k :
  0 <= k -> 0 <= I ->
  (I + (I mod 2 ^ k) / 2) / 2 ^ k
  = I / 2 ^ k + (if 2 ^ k <=? I mod 2 ^ k + (I mod 2 ^ k) / 2 then 1 else 0).
Proof.
  intros Hk HI.
  assert (HP : 0 < 2 ^ k) by (apply Z.pow_pos_nonneg; lia).
  pose proof (Z.mod_pos_bound I (2 ^ k) HP) as Hr.
  pose proof (Z.div_mod I (2 ^ k) ltac:(lia)) as HIq.
  set (P := 2 ^ k) in *. set (q := I / P) in *. set (r := I mod P) in *.
  assert (Hh : 0 <= r / 2 <= r).
  { split; [apply Z.div_pos; lia | apply Z.div_le_upper_bound; lia]. }
  destruct (Z.leb_spec P (r + r / 2)).
  - symmetry. apply Z.div_unique with (r := r + r / 2 - P); nia.
  - symmetry. apply Z.div_unique with (r := r + r / 2); nia.
Qed.

(** ** The magnitude computed by [msensor_ftoi] *)

Lemma to_int_nonneg_iff x : 0 <= to_int x <-> to_uint x <= INT_MAX.
Proof.
  unfold to_int, to_uint, INT_MAX.
  pose proof (Z.mod_pos_bound x (2 ^ 32) ltac:(lia)).
  destruct (Z.ltb_spec (x mod 2 ^ 32) (2 ^ 31)); lia.
Qed.

Lemma to_int_opp_nonpos_iff x : to_int (- x) <= 0 <-> to_uint x <= 2 ^ 31.
Proof.
  unfold to_int, to_uint.
  pose proof (Z.mod_pos_bound x (2 ^ 32) ltac:(lia)) as Hx.
  destruct (Z.eq_dec (x mod 2 ^ 32) 0) as [E|E].
  - assert (E' : (- x) mod 2 ^ 32 = 0).
    { apply Z.mod_divide; [lia|]. apply Z.divide_opp_r.
      apply Z.mod_divide; [lia | exact E]. }
    rewrite E', E. cbn. lia.
  - assert (E' : (- x) mod 2 ^ 32 = 2 ^ 32 - x mod 2 ^ 32).
    { apply Z.mod_opp_l_nz; lia. }
    rewrite E'.
    destruct (Z.ltb_spec (2 ^ 32 - x mod 2 ^ 32) (2 ^ 31)); lia.
Qed.

Section FtoiMagnitude.

Variable L : Z.
Hypothesis HL : 32 <= L.

Lemma ftoi_magnitude_unfold f dp :
  ftoi_magnitude L f dp =
  let e := float_exp f in
  let i := to_ulong L (scaled_mant f dp) in
  if e <? 150 then
    if 150 - e <? L then
      Some (Z.shiftr
              (to_ulong L (i + Z.shiftr (i mod to_ulong L (Z.shiftl 1 (150 - e))) 1))
              (150 - e))
    else None
  else
    if e - 150 <? L then Some (to_ulong L (Z.shiftl i (e - 150)))
    else None.
Proof.
  unfold ftoi_magnitude. rewrite (ftoi_scaled L HL). reflexivity.
Qed.

(** For a normal exponent field the result is the sign applied to the
    magnitude. *)
Lemma ftoi_by_magnitude f dp :
  0 < float_exp f < 255 ->
  msensor_ftoi L f dp
  = option_map (apply_sign L (float_sign f)) (ftoi_magnitude L f dp).
Proof.
  intros He. rewrite (ftoi_unfold L HL), ftoi_magnitude_unfold. cbv zeta.
  destruct (Z.eqb_spec (float_exp f) 0); [lia|].
  destruct (Z.eqb_spec (float_exp f) 255); [lia|].
  destruct (float_exp f <? 150).
  - destruct (150 - float_exp f <? L); reflexivity.
  - destruct (float_exp f - 150 <? L); reflexivity.
Qed.

(** The magnitude after a right shift. *)
Lemma magnitude_right f dp :
  0 < float_exp f < 150 -> 150 - float_exp f < L ->
  exists M,
    ftoi_magnitude L f dp = Some M
    /\ 0 <= M /\ M <= ideal_magnitude f dp
    /\ M * 2 ^ (150 - float_exp f) < 2 ^ L
    /\ (scaled_mant f dp
        + (scaled_mant f dp mod 2 ^ (150 - float_exp f)) / 2 < 2 ^ L ->
        M = ideal_magnitude f dp).
Proof.
  intros He Hk. rewrite ftoi_magnitude_unfold. cbv zeta.
  destruct (Z.ltb_spec (float_exp f) 150); [|lia].
  destruct (Z.ltb_spec (150 - float_exp f) L); [|lia].
  eexists. split; [reflexivity|].
  unfold ideal_magnitude. destruct (Z.ltb_spec (float_exp f) 150); [|lia].
  pose proof (scaled_mant_pos f dp) as Hpos.
  set (I := scaled_mant f dp) in *. set (k := 150 - float_exp f) in *.
  assert (HP : 0 < 2 ^ k) by (apply Z.pow_pos_nonneg; lia).
  assert (HPL : 2 ^ k < 2 ^ L) by (apply Z.pow_lt_mono_r; lia).
  assert (HLpos : 0 < 2 ^ L) by lia.
  rewrite Z.shiftl_mul_pow2, Z.mul_1_l by lia.
  rewrite (to_ulong_small L (2 ^ k)) by lia.
  rewrite (Z.shiftr_div_pow2 _ 1) by lia. change (2 ^ 1) with 2.
  rewrite Z.shiftr_div_pow2 by lia.
  (* the remainder modulo [2^k] does not see the wrap-around *)
  assert (Er : to_ulong L I mod 2 ^ k = I mod 2 ^ k).
  { unfold to_ulong.
    replace (2 ^ L) with (2 ^ k * 2 ^ (L - k))
      by (rewrite <- Z.pow_add_r by lia; f_equal; lia).
    rewrite Z.rem_mul_r by (try apply Z.pow_nonzero; try apply Z.pow_pos_nonneg; lia).
    rewrite (Z.mul_comm (2 ^ k)), Z.mod_add by lia.
    apply Z.mod_mod. lia. }
  rewrite Er.
  pose proof (Z.mod_pos_bound I (2 ^ k) HP) as Hr.
  set (r := I mod 2 ^ k) in *.
  assert (Hh : 0 <= r / 2) by (apply Z.div_pos; lia).
  pose proof (Z.mod_pos_bound I (2 ^ L) HLpos) as Hi.
  assert (Hile : to_ulong L I <= I) by (unfold to_ulong; apply Z.mod_le; lia).
  fold (to_ulong L I) in Hi.
  pose proof (Z.mod_pos_bound (to_ulong L I + r / 2) (2 ^ L) HLpos) as Ht.
  assert (Htle : to_ulong L (to_ulong L I + r / 2) <= to_ulong L I + r / 2)
    by (unfold to_ulong at 1; apply Z.mod_le; lia).
  fold (to_ulong L (to_ulong L I + r / 2)) in Ht.
  set (t := to_ulong L (to_ulong L I + r / 2)) in *.
  repeat split.
  - apply Z.div_pos; lia.
  - apply Z.div_le_mono; lia.
  - pose proof (Z.mul_div_le t (2 ^ k) HP). lia.
  - intros Hfit. subst t.
    rewrite (to_ulong_small L I) by lia.
    rewrite (to_ulong_small L (I + r / 2)) by lia. reflexivity.
Qed.

(** The magnitude after a left shift. *)
Lemma magnitude_left f dp :
  150 <= float_exp f < 255 -> float_exp f - 150 < L ->
  exists M,
    ftoi_magnitude L f dp = Some M
    /\ 0 <= M /\ M <= ideal_magnitude f dp
    /\ M = (scaled_mant f dp * 2 ^ (float_exp f - 150)) mod 2 ^ L.
Proof.
  intros He Hk. rewrite ftoi_magnitude_unfold. cbv zeta.
  destruct (Z.ltb_spec (float_exp f) 150); [lia|].
  destruct (Z.ltb_spec (float_exp f - 150) L); [|lia].
  eexists. split; [reflexivity|].
  unfold ideal_magnitude. destruct (Z.ltb_spec (float_exp f) 150); [lia|].
  pose proof (scaled_mant_pos f dp) as Hpos.
  set (I := scaled_mant f dp) in *. set (n := float_exp f - 150) in *.
  assert (HP : 0 < 2 ^ n) by (apply Z.pow_pos_nonneg; lia).
  assert (HLpos : 0 < 2 ^ L) by (apply Z.pow_pos_nonneg; lia).
  rewrite Z.shiftl_mul_pow2 by lia.
  assert (E : to_ulong L (to_ulong L I * 2 ^ n) = (I * 2 ^ n) mod 2 ^ L).
  { unfold to_ulong. now rewrite Z.mul_mod_idemp_l by lia. }
  rewrite E.
  pose proof (Z.mod_pos_bound (I * 2 ^ n) (2 ^ L) HLpos).
  repeat split; try lia.
  apply Z.mod_le; nia.
Qed.

(** Everything the two theorems on overflow and sign need. *)
Lemma ftoi_normal_result f dp :
  0 <= f < 2 ^ 32 -> 0 < float_exp f < 255 ->
  150 - float_exp f < L -> float_exp f - 150 < L ->
  exists M,
    ftoi_magnitude L f dp = Some M
    /\ 0 <= M
    /\ msensor_ftoi L f dp = Some (to_int ((if f <? 2 ^ 31 then 1 else -1) * M))
    /\ M <= ideal_magnitude f dp
    /\ (150 <= float_exp f ->
        M = (scaled_mant f dp * 2 ^ (float_exp f - 150)) mod 2 ^ L)
    /\ (float_exp f < 150 ->
        scaled_mant f dp
        + (scaled_mant f dp mod 2 ^ (150 - float_exp f)) / 2 < 2 ^ L ->
        M = ideal_magnitude f dp)
    /\ (float_exp f + L <= 181 -> M <= INT_MAX).
Proof.
  intros Hf He Hk Hn.
  assert (Es : float_sign f = if f <? 2 ^ 31 then 1 else -1).
  { unfold float_sign. now rewrite land_sign by exact Hf. }
  destruct (Z.lt_ge_cases (float_exp f) 150) as [Hlo|Hhi].
  - destruct (magnitude_right f dp ltac:(lia) Hk) as (M & HM & H0 & Hle & Hsmall & Hex).
    exists M. repeat split; try assumption; try lia.
    + rewrite ftoi_by_magnitude, HM by lia. cbn [option_map].
      now rewrite (apply_sign_to_int L HL), Es.
    + intros HeL. unfold INT_MAX.
      assert (2 ^ L <= 2 ^ 31 * 2 ^ (150 - float_exp f)).
      { rewrite <- Z.pow_add_r by lia. apply Z.pow_le_mono_r; lia. }
      assert (0 < 2 ^ (150 - float_exp f)) by (apply Z.pow_pos_nonneg; lia).
      nia.
  - destruct (magnitude_left f dp ltac:(lia) Hn) as (M & HM & H0 & Hle & Hmod).
    exists M. repeat split; try assumption; try lia.
    rewrite ftoi_by_magnitude, HM by lia. cbn [option_map].
    now rewrite (apply_sign_to_int L HL), Es.
Qed.

(** The sign of the result, read off the low 32 bits of the
    magnitude. *)
Lemma sign_of_result f M :
  0 <= M ->
  let r := to_int ((if f <? 2 ^ 31 then 1 else -1) * M) in
  (f < 2 ^ 31 -> (0 <= r <-> to_uint M <= INT_MAX))
  /\ (2 ^ 31 <= f -> (r <= 0 <-> to_uint M <= 2 ^ 31))
  /\ (M <= INT_MAX ->
      r = (if f <? 2 ^ 31 then 1 else -1) * M
      /\ (2 ^ 31 <= f -> r <= 0) /\ (f < 2 ^ 31 -> 0 <= r)).
Proof.
  intros H0 r. subst r.
  split; [|split].
  - intros Hpos. destruct (Z.ltb_spec f (2 ^ 31)); [|lia].
    rewrite Z.mul_1_l. apply to_int_nonneg_iff.
  - intros Hneg. destruct (Z.ltb_spec f (2 ^ 31)); [lia|].
    replace (-1 * M) with (- M) by lia. apply to_int_opp_nonpos_iff.
  - intros HM.
    assert (E : to_int ((if f <? 2 ^ 31 then 1 else -1) * M)
                = (if f <? 2 ^ 31 then 1 else -1) * M).
    { apply to_int_small. unfold INT_MAX in HM. destruct (f <? 2 ^ 31); lia. }
    rewrite E. split; [reflexivity|].
    destruct (Z.ltb_spec f (2 ^ 31)); split; lia.
Qed.

End FtoiMagnitude.

(** C2 (as amended).  [msensor_ftoi] saturates on an all-ones exponent
    field only: infinities and NaNs give [INT_MAX] when the sign bit is
    clear and [INT_MIN] when it is set.  A zero exponent field gives 0.
    For any other exponent field, with a shift count below the width of
    [unsigned long], the result [r] is the low 32 bits, read in two's
    complement, of the sign times the magnitude [M] that the code has
    computed in [unsigned long]: from exponent 150 on [M] is the scaled
    mantissa times [2^(e - 150)] modulo [2^LONG_BITS], below 150 it is
    the magnitude without wrap-around when the scaled mantissa with its
    rounding addend fits.  So a finite number that overflows is not
    saturated, it wraps.  When [M] is at most [INT_MAX], as it is
    whenever the magnitude without wrap-around is, [r] is the sign
    times [M]; and the sign is kept exactly when the low 32 bits of
    [M] are at most [INT_MAX], or at most [2^31] under a set sign
    bit. *)
Theorem ftoi_saturates_only_on_inf_nan (LONG_BITS f : Z) (dp : nat) :
  32 <= LONG_BITS -> 0 <= f < 2 ^ 32 ->
  (float_exp f = 255 ->
   msensor_ftoi LONG_BITS f dp = Some (if f <? 2 ^ 31 then INT_MAX else INT_MIN))
  /\ (float_exp f = 0 -> msensor_ftoi LONG_BITS f dp = Some 0)
  /\ (0 < float_exp f < 255 ->
      150 - float_exp f < LONG_BITS -> float_exp f - 150 < LONG_BITS ->
      exists M r,
        ftoi_magnitude LONG_BITS f dp = Some M
        /\ msensor_ftoi LONG_BITS f dp = Some r
        /\ r = to_int ((if f <? 2 ^ 31 then 1 else -1) * M)
        /\ (150 <= float_exp f ->
            M = (scaled_mant f dp * 2 ^ (float_exp f - 150)) mod 2 ^ LONG_BITS)
        /\ (float_exp f < 150 ->
            scaled_mant f dp
            + (scaled_mant f dp mod 2 ^ (150 - float_exp f)) / 2
            < 2 ^ LONG_BITS ->
            M = ideal_magnitude f dp)
        /\ (ideal_magnitude f dp <= INT_MAX -> M <= INT_MAX)
        /\ (M <= INT_MAX -> r = (if f <? 2 ^ 31 then 1 else -1) * M)
        /\ (f < 2 ^ 31 -> (0 <= r <-> to_uint M <= INT_MAX))
        /\ (2 ^ 31 <= f -> (r <= 0 <-> to_uint M <= 2 ^ 31))).
Proof.
  intros HL Hf.
  assert (Es : float_sign f = if f <? 2 ^ 31 then 1 else -1).
  { unfold float_sign. now rewrite land_sign by exact Hf. }
  split; [|split].
  - intros E. rewrite (ftoi_inf_nan LONG_BITS HL f dp E), Es.
    now destruct (f <? 2 ^ 31).
  - intros E. apply (ftoi_zero_exp LONG_BITS HL f dp E).
  - intros He Hk Hn.
    destruct (ftoi_normal_result LONG_BITS HL f dp Hf He Hk Hn)
      as (M & HM & H0 & Hrun & Hle & Hleft & Hright & _).
    destruct (sign_of_result f M H0) as (Hpos & Hneg & Hsmall).
    exists M, (to_int ((if f <? 2 ^ 31 then 1 else -1) * M)).
    split; [exact HM|]. split; [exact Hrun|]. split; [reflexivity|].
    split; [exact Hleft|]. split; [exact Hright|].
    split; [intros Hid; lia|].
    split; [intros HMle; apply (Hsmall HMle)|].
    split; [exact Hpos | exact Hneg].
Qed.

(** Instances of C2: plus and minus infinity, a quiet NaN, minus zero,
    and the normal number 1000.5 with one decimal place. *)
Lemma ftoi_saturates_only_on_inf_nan_witness :
  msensor_ftoi 32 0x7F800000 2 = Some INT_MAX
  /\ msensor_ftoi 32 0xFF800000 2 = Some INT_MIN
  /\ msensor_ftoi 64 0x7FC00000 0 = Some INT_MAX
  /\ msensor_ftoi 32 0x80000000 1 = Some 0
  /\ (exists M r,
         ftoi_magnitude 32 0x447A2000 1 = Some M
         /\ msensor_ftoi 32 0x447A2000 1 = Some r
         /\ r = to_int ((if 0x447A2000 <? 2 ^ 31 then 1 else -1) * M)
         /\ (150 <= float_exp 0x447A2000 ->
             M = (scaled_mant 0x447A2000 1 * 2 ^ (float_exp 0x447A2000 - 150))
                 mod 2 ^ 32)
         /\ (float_exp 0x447A2000 < 150 ->
             scaled_mant 0x447A2000 1
             + (scaled_mant 0x447A2000 1 mod 2 ^ (150 - float_exp 0x447A2000)) / 2
             < 2 ^ 32 ->
             M = ideal_magnitude 0x447A2000 1)
         /\ (ideal_magnitude 0x447A2000 1 <= INT_MAX -> M <= INT_MAX)
         /\ (M <= INT_MAX -> r = (if 0x447A2000 <? 2 ^ 31 then 1 else -1) * M)
         /\ (0x447A2000 < 2 ^ 31 -> (0 <= r <-> to_uint M <= INT_MAX))
         /\ (2 ^ 31 <= 0x447A2000 -> (r <= 0 <-> to_uint M <= 2 ^ 31))).
Proof.
  assert (H32 : 32 <= 32) by lia.
  assert (H64 : 32 <= 64) by lia.
  split; [|split; [|split; [|split]]].
  - apply (proj1 (ftoi_saturates_only_on_inf_nan 32 0x7F800000 2 H32 ltac:(lia))).
    reflexivity.
  - apply (proj1 (ftoi_saturates_only_on_inf_nan 32 0xFF800000 2 H32 ltac:(lia))).
    reflexivity.
  - apply (proj1 (ftoi_saturates_only_on_inf_nan 64 0x7FC00000 0 H64 ltac:(lia))).
    reflexivity.
  - apply (proj1 (proj2
             (ftoi_saturates_only_on_inf_nan 32 0x80000000 1 H32 ltac:(lia)))).
    reflexivity.
  - apply (proj2 (proj2
             (ftoi_saturates_only_on_inf_nan 32 0x447A2000 1 H32 ltac:(lia)))).
    + vm_compute. split; reflexivity.
    + vm_compute. reflexivity.
    + vm_compute. reflexivity.
Defined.

(** C2, refuted as stated: the float [0x4F000000] is [+2^31], a finite
    number with a clear sign bit whose magnitude exceeds [INT_MAX].  It
    is converted to [INT_MIN]: the result is not saturated to
    [INT_MAX] and does not have the sign of the input.  [0x4F800000],
    which is [+2^32], wraps to 0. *)
Lemma ftoi_overflow_wraps :
  0x4F000000 < 2 ^ 31 /\ float_exp 0x4F000000 = 158
  /\ INT_MAX < ideal_magnitude 0x4F000000 0
  /\ msensor_ftoi 32 0x4F000000 0 = Some INT_MIN
  /\ msensor_ftoi 64 0x4F000000 0 = Some INT_MIN
  /\ msensor_ftoi 32 0x4F000000 0 <> Some INT_MAX
  /\ msensor_ftoi 64 0x4F000000 0 <> Some INT_MAX
  /\ msensor_ftoi 32 0x4F800000 0 = Some 0
  /\ msensor_ftoi 64 0x4F800000 0 = Some 0.
Proof. vm_compute. repeat split; discriminate. Qed.

(** C7 (as amended).  For a bit pattern with a normal exponent field
    and a shift count below the width of [unsigned long], the sign of
    the result [r] is decided by the low 32 bits of the magnitude [M]
    that the code has computed in [unsigned long]: under a clear sign
    bit [r] is positive or zero exactly when they are at most
    [INT_MAX], under a set sign bit [r] is negative or zero exactly
    when they are at most [2^31].  So [msensor_ftoi] keeps the sign
    whenever [M] is at most [INT_MAX]; that is the case whenever the
    magnitude without wrap-around is at most [INT_MAX], and whenever
    [e + LONG_BITS <= 181], which on a 32-bit [unsigned long] is every
    exponent field below 150. *)
Theorem ftoi_sign_preserved_without_overflow (LONG_BITS f : Z) (dp : nat) :
  32 <= LONG_BITS -> 0 <= f < 2 ^ 32 ->
  0 < float_exp f < 255 ->
  150 - float_exp f < LONG_BITS -> float_exp f - 150 < LONG_BITS ->
  exists M r,
    ftoi_magnitude LONG_BITS f dp = Some M
    /\ msensor_ftoi LONG_BITS f dp = Some r
    /\ (f < 2 ^ 31 -> (0 <= r <-> to_uint M <= INT_MAX))
    /\ (2 ^ 31 <= f -> (r <= 0 <-> to_uint M <= 2 ^ 31))
    /\ (M <= INT_MAX -> (2 ^ 31 <= f -> r <= 0) /\ (f < 2 ^ 31 -> 0 <= r))
    /\ (ideal_magnitude f dp <= INT_MAX -> M <= INT_MAX)
    /\ (float_exp f + LONG_BITS <= 181 -> M <= INT_MAX).
Proof.
  intros HL Hf He Hk Hn.
  destruct (ftoi_normal_result LONG_BITS HL f dp Hf He Hk Hn)
    as (M & HM & H0 & Hrun & Hle & _ & _ & Hshift).
  destruct (sign_of_result f M H0) as (Hpos & Hneg & Hsmall).
  exists M, (to_int ((if f <? 2 ^ 31 then 1 else -1) * M)).
  split; [exact HM|]. split; [exact Hrun|].
  split; [exact Hpos|]. split; [exact Hneg|].
  split; [intros HMle; apply (Hsmall HMle)|].
  split; [intros Hid; lia | exact Hshift].
Qed.

(** An instance of C7: [0xC2F6E979] is -123.456, converted with three
    decimal places on a 32-bit [unsigned long]. *)
Lemma ftoi_sign_preserved_without_overflow_witness :
  exists M r,
    ftoi_magnitude 32 0xC2F6E979 3 = Some M
    /\ msensor_ftoi 32 0xC2F6E979 3 = Some r
    /\ (0xC2F6E979 < 2 ^ 31 -> (0 <= r <-> to_uint M <= INT_MAX))
    /\ (2 ^ 31 <= 0xC2F6E979 -> (r <= 0 <-> to_uint M <= 2 ^ 31))
    /\ (M <= INT_MAX ->
        (2 ^ 31 <= 0xC2F6E979 -> r <= 0) /\ (0xC2F6E979 < 2 ^ 31 -> 0 <= r))
    /\ (ideal_magnitude 0xC2F6E979 3 <= INT_MAX -> M <= INT_MAX)
    /\ (float_exp 0xC2F6E979 + 32 <= 181 -> M <= INT_MAX).
Proof.
  apply (ftoi_sign_preserved_without_overflow 32 0xC2F6E979 3).
  - lia.
  - lia.
  - vm_compute. split; reflexivity.
  - vm_compute. reflexivity.
  - vm_compute. reflexivity.
Defined.

(** C7, refuted as stated: [0xCF400000] is [-1.5 * 2^31], a bit
    pattern with a set sign bit and the normal exponent field 158; its
    conversion is [2^30], a positive number.  [0x4F000000] has a clear
    sign bit and its conversion is negative. *)
Lemma ftoi_sign_flips_on_overflow :
  2 ^ 31 <= 0xCF400000 < 2 ^ 32 /\ float_exp 0xCF400000 = 158
  /\ msensor_ftoi 32 0xCF400000 0 = Some (2 ^ 30)
  /\ msensor_ftoi 64 0xCF400000 0 = Some (2 ^ 30)
  /\ ~ 2 ^ 30 <= 0
  /\ 0 <= 0x4F000000 < 2 ^ 31 /\ float_exp 0x4F000000 = 158
  /\ msensor_ftoi 32 0x4F000000 0 = Some (- 2 ^ 31)
  /\ msensor_ftoi 64 0x4F000000 0 = Some (- 2 ^ 31)
  /\ ~ 0 <= - 2 ^ 31.
Proof. vm_compute. repeat split; discriminate || (intros H; now apply H). Qed.

(** C3: the code does not round half up.  [0x3FC00000] is 1.5; its
    exponent field 127 is below 150 and the scaled mantissa is shifted
    right by 23.  Rounding to the nearest integer with ties going up
    gives 2; [msensor_ftoi] returns 1, and it returns 0 for 0.5. *)
Theorem ftoi_rounds_half_down :
  float_exp 0x3FC00000 = 127
  /\ round_half_up (scaled_mant 0x3FC00000 0) (150 - 127) = 2
  /\ msensor_ftoi 32 0x3FC00000 0 = Some 1
  /\ msensor_ftoi 64 0x3FC00000 0 = Some 1
  /\ round_half_up (scaled_mant 0x3F000000 0) (150 - 126) = 1
  /\ msensor_ftoi 32 0x3F000000 0 = Some 0
  /\ msensor_ftoi 64 0x3F000000 0 = Some 0.
Proof. vm_compute. repeat split. Qed.




(** With a 64-bit [unsigned long] nothing overflows in that range. *)
Lemma roundtrip_within_one_lp64 (fuel : nat) (v : Z) (dp : nat) :
  (30 <= fuel)%nat -> (dp <= 3)%nat -> - 2 ^ 23 < v < 2 ^ 23 -> v <> 0 ->
  exists bits r,
    msensor_itof 64 fuel v dp = Some bits
    /\ msensor_ftoi 64 bits dp = Some r
    /\ v - 1 <= r <= v + 1.
Proof.
  intros Hfuel Hdp Hv Hnz.
  pose proof (pow10_le_1000 dp Hdp) as HD.
  destruct (roundtrip_magnitude 64 ltac:(lia) fuel v dp)
    as (bits & mag & Hitof & Hftoi & Hmag); try assumption; try lia.
  exists bits, ((if v <? 0 then -1 else 1) * mag).
  split; [exact Hitof|]. split; [exact Hftoi|].
  destruct (Z.ltb_spec v 0); lia.
Qed.

(** On the EV3's 32-bit [unsigned long] three decimal places always
    overflow the scaling loop: 100 comes back as 4. *)
Lemma roundtrip_ilp32_three_places :
  (i <- msensor_itof 32 30 100 3 ;; msensor_ftoi 32 i 3) = Some 4
  /\ (i <- msensor_itof 64 30 100 3 ;; msensor_ftoi 64 i 3) = Some 100.
Proof. vm_compute. split; reflexivity. Qed.

(** C5: [msensor_itof] does not terminate on every non-zero input.
    For [v = 1] and [dp = 7] the seven divisions by ten reduce
    [1 << 23] to zero, and the loop [while (f < (1 << 23))] then never
    leaves: no amount of fuel gives a result. *)
Theorem itof_loops_on_zero_mantissa :
  forall fuel : nat,
    msensor_itof 32 fuel 1 7 = None /\ msensor_itof 64 fuel 1 7 = None.
Proof.
  intros fuel. split.
  - apply itof_diverges_small; try lia; vm_compute; reflexivity.
  - apply itof_diverges_small; try lia; vm_compute; reflexivity.
Qed.

(** With a 32-bit [unsigned long] the same happens without any
    division, when [|v| << 23] wraps to zero. *)
Lemma itof_loops_on_512_ilp32 :
  forall fuel : nat, msensor_itof 32 fuel 512 0 = None.
Proof.
  intros fuel. unfold msensor_itof.
  change (512 =? 0) with false. cbv iota.
  change (div10_loop 0 (to_ulong 32 (Z.shiftl (to_ulong 32 (to_int (512 * (if 512 <? 0 then -1 else 1)))) 23)))
    with 0.
  assert (E : norm_down fuel 0 127 = Some (0, 127)) by (destruct fuel; reflexivity).
  rewrite E. cbn [obind]. rewrite norm_up_zero; [reflexivity | lia].
Qed.

(** ** Facts about strings *)

Lemma string_app_assoc (a b c : string) : ((a ++ b) ++ c = a ++ (b ++ c))%string.
Proof. induction a as [|x a IH]; simpl; [reflexivity | now rewrite IH]. Qed.

Lemma string_length_app (a b : string) :
  String.length (a ++ b) = (String.length a + String.length b)%nat.
Proof. induction a as [|x a IH]; simpl; [reflexivity | now rewrite IH]. Qed.

(** Overwriting the last character. *)
Lemma store_char_last (s : string) (c c' : ascii) :
  store_char (s ++ String c EmptyString) (String.length s) c'
  = (s ++ String c' EmptyString)%string.
Proof. induction s as [|x s IH]; simpl; [reflexivity | now rewrite IH]. Qed.

(** ** The mode attribute *)

Section ModeFacts.

Variable context : Type.
Variable ms : msensor_device context.

(** The loop of [msensor_show_mode] appends the displayed list and one
    more space. *)
Lemma show_mode_loop_display mode infos : forall i buf,
  infos <> [] ->
  show_mode_loop mode infos i buf
  = (buf ++ String.concat " " (bracket_current mode i (map name infos)) ++ " ")%string.
Proof.
  induction infos as [|mi rest IH]; intros i buf Hne; [contradiction|].
  cbn [show_mode_loop map bracket_current].
  destruct rest as [|mi' rest'].
  - cbn [show_mode_loop map bracket_current String.concat].
    destruct (i =? mode); now rewrite ?string_app_assoc.
  - rewrite IH by discriminate.
    cbn [map bracket_current String.concat].
    destruct (i =? mode); now rewrite ?string_app_assoc.
Qed.

Lemma show_mode_nonempty (ctx : context) (buf : string) :
  mode_info ms <> [] ->
  let line := (mode_list_display (get_mode ms ctx) (map name (mode_info ms))
               ++ String "010" EmptyString)%string in
  msensor_show_mode ms ctx buf = (Z.of_nat (String.length line), line).
Proof.
  intros Hne line. unfold msensor_show_mode.
  rewrite show_mode_loop_display by exact Hne.
  cbn [append]. fold (mode_list_display (get_mode ms ctx) (map name (mode_info ms))).
  set (d := mode_list_display (get_mode ms ctx) (map name (mode_info ms))) in *.
  assert (El : String.length (d ++ " ") = S (String.length d)).
  { rewrite string_length_app. simpl. lia. }
  assert (El' : String.length line = S (String.length d)).
  { unfold line. rewrite string_length_app. simpl. lia. }
  rewrite El, El'.
  destruct (Z.eqb_spec (Z.of_nat (S (String.length d))) 0); [lia|].
  f_equal.
  replace (Z.to_nat (Z.of_nat (S (String.length d)) - 1)) with (String.length d) by lia.
  apply store_char_last.
Qed.

Lemma show_mode_empty (ctx : context) (buf : string) :
  mode_info ms = [] -> msensor_show_mode ms ctx buf = (- ENXIO, buf).
Proof. intros E. unfold msensor_show_mode. now rewrite E. Qed.

End ModeFacts.

(** C10 (as amended).  On a non-empty table [msensor_show_mode] leaves
    in [buf] the names in table order, separated by one space, the
    current one in square brackets, followed by a newline character,
    and returns the length of that text; on an empty table it returns
    [-ENXIO] and leaves [buf] alone. *)
Theorem show_mode_line (context : Type) (ms : msensor_device context)
        (ctx : context) (buf : string) :
  (mode_info ms = [] -> msensor_show_mode ms ctx buf = (- ENXIO, buf))
  /\ (mode_info ms <> [] ->
      let line := (mode_list_display (get_mode ms ctx) (map name (mode_info ms))
                   ++ String "010" EmptyString)%string in
      msensor_show_mode ms ctx buf = (Z.of_nat (String.length line), line)).
Proof.
  split.
  - apply show_mode_empty.
  - apply show_mode_nonempty.
Qed.

(** An instance of C10: the table A, B, C with B current. *)
Lemma show_mode_line_witness :
  msensor_show_mode abc_device 1 EmptyString
  = (8, ("A [B] C" ++ String "010" EmptyString)%string).
Proof.
  apply (proj2 (show_mode_line Z abc_device 1 EmptyString)).
  discriminate.
Defined.

(** C10, refuted as stated: for the table A, B, C with current index 1
    the text is not ["A [B] C"]: it is that list followed by a newline
    character. *)
Lemma show_mode_has_newline :
  snd (msensor_show_mode abc_device 1 EmptyString) <> "A [B] C"%string
  /\ msensor_show_mode abc_device 1 EmptyString
     = (8, ("A [B] C" ++ String "010" EmptyString)%string).
Proof. split; [vm_compute; discriminate | reflexivity]. Qed.

Section StoreModeFacts.

Variable context : Type.
Variable sysfs_streq : string -> string -> bool.
Variable ms : msensor_device context.

Lemma store_mode_loop_no_match infos : forall i ctx buf count,
  (forall mi, In mi infos -> sysfs_streq buf (name mi) = false) ->
  store_mode_loop sysfs_streq ms infos i ctx buf count = (ctx, - EINVAL).
Proof.
  induction infos as [|mi rest IH]; intros i ctx buf count Hno; [reflexivity|].
  cbn [store_mode_loop]. rewrite (Hno mi) by (left; reflexivity).
  apply IH. intros mi' Hin. apply Hno. right. exact Hin.
Qed.

Lemma store_mode_loop_first_match pre : forall mi post i ctx buf count,
  (forall mi', In mi' pre -> sysfs_streq buf (name mi') = false) ->
  sysfs_streq buf (name mi) = true ->
  store_mode_loop sysfs_streq ms (pre ++ mi :: post) i ctx buf count
  = switch_to ms ctx (i + Z.of_nat (List.length pre)) count.
Proof.
  induction pre as [|p pre IH]; intros mi post i ctx buf count Hno Hyes.
  - cbn [app store_mode_loop List.length]. rewrite Hyes.
    unfold switch_to. now rewrite Z.add_0_r.
  - cbn [app store_mode_loop]. rewrite (Hno p) by (left; reflexivity).
    rewrite IH; [|intros mi' Hin; apply Hno; right; exact Hin|exact Hyes].
    f_equal. cbn [List.length]. lia.
Qed.

End StoreModeFacts.


(** What [kernel_sysfs_streq] decides. *)
Lemma kernel_sysfs_streq_spec (a : string) : forall b,
  kernel_sysfs_streq a b = true <-> name_matches a b.
Proof.
  unfold name_matches.
  induction a as [|c1 r1 IH]; intros [|c2 r2]; cbn [kernel_sysfs_streq append].
  - split; [intros _; left; reflexivity | reflexivity].
  - split.
    + intros H. apply andb_true_iff in H. destruct H as [Hc Hr].
      apply Ascii.eqb_eq in Hc. subst c2.
      destruct r2; [|discriminate]. right; right; reflexivity.
    + intros [H | [H | H]]; try discriminate.
      injection H as <- <-. reflexivity.
  - split.
    + intros H. apply andb_true_iff in H. destruct H as [Hc Hr].
      apply Ascii.eqb_eq in Hc. subst c1.
      destruct r1; [|discriminate]. right; left; reflexivity.
    + intros [H | [H | H]]; try discriminate.
      injection H as -> ->. reflexivity.
  - destruct (Ascii.eqb_spec c1 c2) as [-> | Hne].
    + rewrite IH. split.
      * intros [H | [H | H]]; [left | right; left | right; right]; now rewrite H.
      * intros [H | [H | H]]; injection H as H;
          [left | right; left | right; right]; exact H.
    + split; [discriminate|].
      intros [H | [H | H]]; injection H as Hc _; contradiction.
Qed.

(** C6 (as amended).  A requested name matches the name of an entry
    when the two are equal or one is the other followed by a single
    newline, which is what the kernel's [sysfs_streq] decides.  If the
    requested name matches no entry, [msensor_store_mode] returns
    [-EINVAL] and the driver state, hence the current mode, is
    untouched.  If entry [i] is the first entry it matches,
    [msensor_store_mode] calls [set_mode] with index [i], returns
    [count] when the callback reports no error and the callback's error
    otherwise; after an error the previous mode is still current,
    given that the driver's [set_mode] keeps the current mode whenever
    it fails. *)
Theorem store_mode_by_name (context : Type)
        (ms : msensor_device context) (ctx : context)
        (buf : string) (count : Z) :
  (forall c i, snd (set_mode ms c i) <> 0 ->
               get_mode ms (fst (set_mode ms c i)) = get_mode ms c) ->
  ((forall mi, In mi (mode_info ms) -> ~ name_matches buf (name mi)) ->
   msensor_store_mode kernel_sysfs_streq ms ctx buf count = (ctx, - EINVAL))
  /\ (forall i mi,
         nth_error (mode_info ms) i = Some mi ->
         name_matches buf (name mi) ->
         (forall j mj, (j < i)%nat -> nth_error (mode_info ms) j = Some mj ->
                       ~ name_matches buf (name mj)) ->
         let r := set_mode ms ctx (Z.of_nat i) in
         msensor_store_mode kernel_sysfs_streq ms ctx buf count
         = (fst r, if snd r =? 0 then count else snd r)
         /\ (snd r <> 0 ->
             get_mode ms
               (fst (msensor_store_mode kernel_sysfs_streq ms ctx buf count))
             = get_mode ms ctx)).
Proof.
  intros Hdriver.
  assert (Hfalse : forall n, ~ name_matches buf n ->
                             kernel_sysfs_streq buf n = false).
  { intros n Hn. destruct (kernel_sysfs_streq buf n) eqn:E; [|reflexivity].
    apply kernel_sysfs_streq_spec in E. contradiction. }
  split.
  - intros Hno. unfold msensor_store_mode.
    apply store_mode_loop_no_match.
    intros mi Hin. apply Hfalse. apply (Hno mi Hin).
  - intros i mi Hnth Hname Hfirst r.
    assert (Erun : msensor_store_mode kernel_sysfs_streq ms ctx buf count
                   = (fst r, if snd r =? 0 then count else snd r)).
    { unfold msensor_store_mode.
      destruct (nth_error_split _ _ Hnth) as (pre & post & Esplit & Hlen).
      rewrite Esplit in Hfirst |- *.
      rewrite store_mode_loop_first_match.
      - unfold switch_to. rewrite Hlen, Z.add_0_l. fold r.
        destruct r as [ctx' err]. cbn [fst snd].
        now destruct (err =? 0).
      - intros mi' Hin. apply Hfalse.
        destruct (In_nth_error _ _ Hin) as (j & Hj).
        assert (Hlt : (j < i)%nat).
        { rewrite <- Hlen. apply nth_error_Some. rewrite Hj. discriminate. }
        apply (Hfirst j mi' Hlt).
        rewrite nth_error_app1 by (rewrite Hlen; exact Hlt). exact Hj.
      - apply kernel_sysfs_streq_spec. exact Hname. }
    split; [exact Erun|].
    intros Herr. rewrite Erun. cbn [fst]. apply Hdriver. exact Herr.
Qed.

(** Instances of C6 on the sample driver, whose current mode is 0: the
    name D matches no entry; the name C matches entry 2, which the
    driver refuses with [-EIO]; the name B followed by a newline
    matches entry 1, which it accepts. *)
Lemma store_mode_by_name_witness :
  msensor_store_mode kernel_sysfs_streq abc_device 0 "D" 2 = (0, - EINVAL)
  /\ msensor_store_mode kernel_sysfs_streq abc_device 0 "C" 2 = (0, -5)
  /\ get_mode abc_device
       (fst (msensor_store_mode kernel_sysfs_streq abc_device 0 "C" 2))
     = get_mode abc_device 0
  /\ msensor_store_mode kernel_sysfs_streq abc_device 0
       ("B" ++ String "010" EmptyString) 2 = (1, 2).
Proof.
  assert (Hdriver : forall c i, snd (set_mode abc_device c i) <> 0 ->
             get_mode abc_device (fst (set_mode abc_device c i))
             = get_mode abc_device c).
  { intros c i. cbn. destruct (i =? 2); cbn; [reflexivity | intros H; now elim H]. }
  assert (Hnone : forall buf n, kernel_sysfs_streq buf n = false ->
                                ~ name_matches buf n).
  { intros buf n E H. apply kernel_sysfs_streq_spec in H.
    rewrite H in E. discriminate. }
  split; [|split; [|split]].
  - apply (proj1 (store_mode_by_name Z abc_device 0 "D" 2 Hdriver)).
    cbn. intros mi [<- | [<- | [<- | []]]]; apply Hnone; reflexivity.
  - apply (proj1 (proj2 (store_mode_by_name Z abc_device 0 "C" 2 Hdriver)
                    2%nat _ eq_refl (or_introl eq_refl)
                    ltac:(intros [|[|j]] mj Hj Hn;
                          [injection Hn as <-; apply Hnone; reflexivity
                          |injection Hn as <-; apply Hnone; reflexivity
                          |lia]))).
  - apply (proj2 (proj2 (store_mode_by_name Z abc_device 0 "C" 2 Hdriver)
                    2%nat _ eq_refl (or_introl eq_refl)
                    ltac:(intros [|[|j]] mj Hj Hn;
                          [injection Hn as <-; apply Hnone; reflexivity
                          |injection Hn as <-; apply Hnone; reflexivity
                          |lia]))).
    cbn. discriminate.
  - apply (proj1 (proj2 (store_mode_by_name Z abc_device 0
                           ("B" ++ String "010" EmptyString) 2 Hdriver)
                    1%nat _ eq_refl (or_intror (or_introl eq_refl))
                    ltac:(intros [|j] mj Hj Hn;
                          [injection Hn as <-; apply Hnone; reflexivity
                          |lia]))).
Defined.

(** C6, refuted as stated: no entry of the sample table is named B
    followed by a newline, yet a request for that string is not
    refused with [-EINVAL]: entry 1, named B, is selected and the
    write succeeds. *)
Lemma store_mode_accepts_trailing_newline :
  (forall mi, In mi (mode_info abc_device) ->
              name mi <> ("B" ++ String "010" EmptyString)%string)
  /\ msensor_store_mode kernel_sysfs_streq abc_device 0
       ("B" ++ String "010" EmptyString) 2 = (1, 2)
  /\ msensor_store_mode kernel_sysfs_streq abc_device 0
       ("B" ++ String "010" EmptyString) 2 <> (0, - EINVAL).
Proof.
  split; [|split].
  - cbn. intros mi [<- | [<- | [<- | []]]]; discriminate.
  - reflexivity.
  - vm_compute. discriminate.
Qed.

(** ** The value attributes *)

Lemma sprintf_d_nl_count v : 0 < fst (sprintf_d_nl v).
Proof.
  unfold sprintf_d_nl. cbn [fst]. rewrite string_length_app. simpl. lia.
Qed.

(** The attribute names of this class select the indices 0 to 7. *)
Lemma show_value_attr_names (LONG_BITS : Z) (context : Type)
      (ms : msensor_device context) (ctx : context) (buf : string) :
  msensor_show_value LONG_BITS ms ctx "value0" buf = show_value_at LONG_BITS ms ctx buf 0
  /\ msensor_show_value LONG_BITS ms ctx "value1" buf = show_value_at LONG_BITS ms ctx buf 1
  /\ msensor_show_value LONG_BITS ms ctx "value2" buf = show_value_at LONG_BITS ms ctx buf 2
  /\ msensor_show_value LONG_BITS ms ctx "value3" buf = show_value_at LONG_BITS ms ctx buf 3
  /\ msensor_show_value LONG_BITS ms ctx "value4" buf = show_value_at LONG_BITS ms ctx buf 4
  /\ msensor_show_value LONG_BITS ms ctx "value5" buf = show_value_at LONG_BITS ms ctx buf 5
  /\ msensor_show_value LONG_BITS ms ctx "value6" buf = show_value_at LONG_BITS ms ctx buf 6
  /\ msensor_show_value LONG_BITS ms ctx "value7" buf = show_value_at LONG_BITS ms ctx buf 7.
Proof. repeat split. Qed.

(** C8.  With the current mode in the table, the value attribute
    returns [-ENXIO] exactly when the index is negative or not below
    the [data_sets] of the current mode; in particular it does for
    [index = data_sets]. *)
Theorem show_value_index_check (LONG_BITS : Z) (context : Type)
        (ms : msensor_device context) (ctx : context) (buf : string)
        (index : Z) (mi : msensor_mode_info) :
  mode_at ms (get_mode ms ctx) = Some mi ->
  (option_map fst (show_value_at LONG_BITS ms ctx buf index) = Some (- ENXIO)
   <-> index < 0 \/ data_sets mi <= index)
  /\ option_map fst (show_value_at LONG_BITS ms ctx buf (data_sets mi))
     = Some (- ENXIO).
Proof.
  intros Hmode.
  assert (Hout : forall ix, ix < 0 \/ data_sets mi <= ix ->
            show_value_at LONG_BITS ms ctx buf ix = Some (- ENXIO, buf)).
  { intros ix Hix. unfold show_value_at. rewrite Hmode. cbn [obind].
    destruct (Z.ltb_spec ix 0); [reflexivity|].
    rewrite Z.geb_leb. destruct (Z.leb_spec (data_sets mi) ix); [reflexivity|lia]. }
  split; [split|].
  - intros Hres.
    destruct (Z.lt_ge_cases index 0) as [|Hge]; [now left|].
    destruct (Z.le_gt_cases (data_sets mi) index) as [|Hlt]; [now right|].
    exfalso. revert Hres. unfold show_value_at. rewrite Hmode. cbn [obind].
    destruct (Z.ltb_spec index 0); [lia|].
    rewrite Z.geb_leb. destruct (Z.leb_spec (data_sets mi) index); [lia|].
    cbn [orb].
    assert (Hpos : forall o : option Z,
               option_map fst (v <- o ;; Some (sprintf_d_nl v)) <> Some (- ENXIO)).
    { intros [v|]; cbn; [|discriminate].
      pose proof (sprintf_d_nl_count v). unfold ENXIO. intros E.
      injection E as E. lia. }
    destruct (format mi); apply Hpos.
  - intros Hix. now rewrite (Hout index Hix).
  - rewrite (Hout (data_sets mi)); [reflexivity | right; lia].
Qed.

(** Instances of C8: mode A of the sample device has two values. *)
Lemma show_value_index_check_witness :
  option_map fst (show_value_at 32 abc_device 0 EmptyString 2) = Some (- ENXIO)
  /\ (option_map fst (show_value_at 32 abc_device 0 EmptyString 1) = Some (- ENXIO)
      <-> 1 < 0 \/ 2 <= 1).
Proof.
  split.
  - apply (proj2 (show_value_index_check 32 Z abc_device 0 EmptyString 0 _ eq_refl)).
  - apply (proj1 (show_value_index_check 32 Z abc_device 0 EmptyString 1 _ eq_refl)).
Defined.

(** Two bytes, low byte first, as one number. *)
Lemma load_le_2 mem off b0 b1 :
  0 <= off ->
  nth_error mem (Z.to_nat off) = Some b0 ->
  nth_error mem (Z.to_nat (off + 1)) = Some b1 ->
  0 <= b0 < 256 -> 0 <= b1 < 256 ->
  load_le 2 mem off = Some (b0 + 256 * b1).
Proof.
  intros Hoff H0 H1 Hb0 Hb1. cbn [load_le]. unfold load_u8.
  destruct (Z.ltb_spec off 0); [lia|].
  destruct (Z.ltb_spec (off + 1) 0); [lia|].
  rewrite H0, H1. cbn [obind]. f_equal.
  rewrite Z.shiftl_0_l, Z.lor_0_r.
  rewrite lor_low_shiftl by lia. lia.
Qed.

(** C9.  In a mode of format [MSENSOR_DATA_16], for an index in range
    whose two bytes [b0], [b1] lie in the buffer at offset [index * 2],
    [msensor_raw_s16_value] is the signed 16-bit number with low byte
    [b0] and high byte [b1], and the value attribute prints it. *)
Theorem s16_value_decoding (LONG_BITS : Z) (context : Type)
        (ms : msensor_device context) (ctx : context) (buf : string)
        (index : Z) (mi : msensor_mode_info) (b0 b1 : Z) :
  mode_at ms (get_mode ms ctx) = Some mi ->
  format mi = MSENSOR_DATA_16 ->
  0 <= index < data_sets mi ->
  nth_error (raw_data mi) (Z.to_nat (index * 2)) = Some b0 ->
  nth_error (raw_data mi) (Z.to_nat (index * 2 + 1)) = Some b1 ->
  0 <= b0 < 256 -> 0 <= b1 < 256 ->
  msensor_raw_s16_value ms ctx index = Some (s16_of_bytes b0 b1)
  /\ show_value_at LONG_BITS ms ctx buf index
     = Some (sprintf_d_nl (s16_of_bytes b0 b1)).
Proof.
  intros Hmode Hfmt Hix H0 H1 Hb0 Hb1.
  assert (Eraw : msensor_raw_s16_value ms ctx index = Some (s16_of_bytes b0 b1)).
  { unfold msensor_raw_s16_value. rewrite Hmode. cbn [obind].
    rewrite (load_le_2 _ _ b0 b1) by (try assumption; lia).
    cbn [obind]. reflexivity. }
  split; [exact Eraw|].
  unfold show_value_at. rewrite Hmode. cbn [obind].
  destruct (Z.ltb_spec index 0); [lia|].
  rewrite Z.geb_leb. destruct (Z.leb_spec (data_sets mi) index); [lia|].
  cbn [orb]. rewrite Hfmt, Eraw. reflexivity.
Qed.

(** The instance of C9 given in the specification: two values in the
    bytes 01 00 FF FF. *)
Lemma s16_value_decoding_witness :
  (msensor_raw_s16_value abc_device 0 0 = Some 1
   /\ show_value_at 32 abc_device 0 EmptyString 0
      = Some (2, ("1" ++ String "010" EmptyString)%string))
  /\ (msensor_raw_s16_value abc_device 0 1 = Some (-1)
      /\ show_value_at 32 abc_device 0 EmptyString 1
         = Some (3, ("-1" ++ String "010" EmptyString)%string)).
Proof.
  split.
  - apply (s16_value_decoding 32 Z abc_device 0 EmptyString 0 _ 0x01 0x00 eq_refl eq_refl);
      try reflexivity; cbn; lia.
  - apply (s16_value_decoding 32 Z abc_device 0 EmptyString 1 _ 0xFF 0xFF eq_refl eq_refl);
      try reflexivity; cbn; lia.
Defined.

(** ** The binary attribute *)

Section BinDataFacts.

Variable context : Type.
Variable ms : msensor_device context.

(** At or past the end of the attribute nothing is copied and the
    result is 0, not an error. *)
Lemma read_bin_data_past_end (ctx : context) attr_size buf off count :
  attr_size <= off ->
  msensor_read_bin_data ms ctx attr_size buf off count = Some (0, buf)
  /\ bytes_returned (0, buf) = [].
Proof.
  intros Hoff. unfold msensor_read_bin_data.
  rewrite Z.geb_leb. destruct (Z.leb_spec attr_size off); [|lia].
  split; reflexivity.
Qed.

(** Inside the attribute: the first bytes of the raw buffer are
    copied to [buf + off]. *)
Lemma read_bin_data_copy (ctx : context) attr_size buf off count mi :
  mode_at ms (get_mode ms ctx) = Some mi ->
  0 <= off < attr_size -> 0 < count ->
  let n := Z.min count (attr_size - off) in
  off + n <= Z.of_nat (List.length buf) ->
  n <= Z.of_nat (List.length (raw_data mi)) ->
  msensor_read_bin_data ms ctx attr_size buf off count
  = Some (n, firstn (Z.to_nat off) buf
               ++ firstn (Z.to_nat n) (raw_data mi)
               ++ skipn (Z.to_nat (off + n)) buf).
Proof.
  intros Hmode Hoff Hcount n Hbuf Hraw. unfold msensor_read_bin_data.
  rewrite Z.geb_leb. destruct (Z.leb_spec attr_size off); [lia|].
  destruct (Z.eqb_spec count 0); [lia|]. cbn [orb].
  rewrite Hmode. cbn [obind].
  assert (En : (if count <? attr_size - off then count else attr_size - off) = n).
  { unfold n. destruct (Z.ltb_spec count (attr_size - off)); lia. }
  rewrite En. unfold memcpy.
  destruct (Z.ltb_spec off 0); [lia|].
  destruct (Z.ltb_spec n 0); [lia|].
  destruct (Z.ltb_spec (Z.of_nat (List.length buf)) (off + n)); [lia|].
  destruct (Z.ltb_spec (Z.of_nat (List.length (raw_data mi))) n); [lia|].
  reflexivity.
Qed.

(** A read at offset 0 hands back the window the specification
    describes. *)
Lemma read_bin_data_at_zero (ctx : context) attr_size buf count mi :
  mode_at ms (get_mode ms ctx) = Some mi ->
  0 < attr_size -> 0 < count ->
  attr_size <= Z.of_nat (List.length buf) ->
  Z.of_nat (List.length (raw_data mi)) = attr_size ->
  option_map bytes_returned (msensor_read_bin_data ms ctx attr_size buf 0 count)
  = Some (read_raw_window (raw_data mi) attr_size 0 count).
Proof.
  intros Hmode Hsize Hcount Hbuf Hraw.
  rewrite (read_bin_data_copy ctx attr_size buf 0 count mi Hmode) by lia.
  cbn [option_map]. f_equal. unfold bytes_returned, read_raw_window.
  cbn [fst snd]. rewrite Z.sub_0_r.
  change (Z.to_nat 0) with 0%nat. cbn [firstn skipn app].
  rewrite firstn_app.
  rewrite firstn_firstn, Nat.min_id.
  rewrite length_firstn.
  replace (Z.to_nat (Z.min count attr_size)
           - Nat.min (Z.to_nat (Z.min count attr_size)) (List.length (raw_data mi)))%nat
    with 0%nat by lia.
  cbn [firstn]. rewrite app_nil_r.
  rewrite firstn_firstn. f_equal. lia.
Qed.

End BinDataFacts.

(** C1: the offset is applied to the wrong pointer.  The sample
    device in mode 2 holds the bytes 100 to 131.  A read of 8 bytes at
    offset 4 should hand back the bytes 104 to 111; the code copies the
    bytes 100 to 107 to [buf + 4], so that the 8 bytes handed back
    are what the page held in its first four bytes and then 100 to 103.
    Not even the bytes at [buf + 4] are the requested window. *)
Theorem read_bin_data_ignores_offset :
  read_raw_window (map Z.of_nat (seq 100 32)) MSENSOR_RAW_DATA_SIZE 4 8
  = [104; 105; 106; 107; 108; 109; 110; 111]
  /\ option_map bytes_returned
       (msensor_read_bin_data abc_device 2 MSENSOR_RAW_DATA_SIZE zero_page 4 8)
     = Some [0; 0; 0; 0; 100; 101; 102; 103]
  /\ option_map (fun r => firstn 8 (skipn 4 (snd r)))
       (msensor_read_bin_data abc_device 2 MSENSOR_RAW_DATA_SIZE zero_page 4 8)
     = Some [100; 101; 102; 103; 104; 105; 106; 107].
Proof. vm_compute. repeat split. Qed.


(** * Further properties of the code *)

(** ** More on [msensor_ftoi] *)

Lemma some_inj (A : Type) (a b : A) : Some a = Some b -> a = b.
Proof. intros E. congruence. Qed.

Section FtoiMore.

Variable L : Z.
Hypothesis HL : 32 <= L.

(** Adding the sign bit leaves exponent and mantissa alone. *)
Lemma sign_bit_fields f :
  0 <= f < 2 ^ 31 ->
  float_exp (f + 2 ^ 31) = float_exp f
  /\ float_mant (f + 2 ^ 31) = float_mant f
  /\ float_sign f = 1 /\ float_sign (f + 2 ^ 31) = -1.
Proof.
  intros Hf. repeat split.
  - unfold float_exp. rewrite !land_exp. f_equal.
    replace (f + 2 ^ 31) with (f + 2 ^ 8 * 2 ^ 23) by lia.
    rewrite Z.div_add by lia. now rewrite Z.add_mod, Z.mod_same, Z.add_0_r, Z.mod_mod by lia.
  - unfold float_mant. rewrite !land_mant. f_equal.
    replace (f + 2 ^ 31) with (f + 2 ^ 8 * 2 ^ 23) by lia.
    now rewrite Z.mod_add by lia.
  - unfold float_sign. rewrite land_sign by lia.
    destruct (Z.ltb_spec f (2 ^ 31)); [reflexivity | lia].
  - unfold float_sign. rewrite land_sign by lia.
    destruct (Z.ltb_spec (f + 2 ^ 31) (2 ^ 31)); [lia | reflexivity].
Qed.

Lemma to_int_opp_to_int x : to_int (- to_int x) = to_int (- x).
Proof.
  apply to_int_congr. unfold to_int.
  destruct (x mod 2 ^ 32 <? 2 ^ 31).
  - rewrite <- (Z.mul_1_l (x mod 2 ^ 32)), <- Z.mul_opp_l.
    rewrite Z.mul_mod_idemp_r by lia. f_equal; lia.
  - replace (- (x mod 2 ^ 32 - 2 ^ 32)) with (-1 * (x mod 2 ^ 32) + 1 * 2 ^ 32) by lia.
    rewrite Z.mod_add by lia.
    rewrite Z.mul_mod_idemp_r by lia. f_equal; lia.
Qed.

Lemma to_int_range x : - 2 ^ 31 <= to_int x < 2 ^ 31.
Proof.
  unfold to_int. pose proof (Z.mod_pos_bound x (2 ^ 32) ltac:(lia)).
  destruct (Z.ltb_spec (x mod 2 ^ 32) (2 ^ 31)); lia.
Qed.

Lemma ftoi_result_range f dp r :
  msensor_ftoi L f dp = Some r -> - 2 ^ 31 <= r < 2 ^ 31.
Proof.
  rewrite ftoi_unfold by exact HL. cbv zeta.
  destruct (float_exp f =? 0); [intros E; apply some_inj in E; subst r; lia|].
  destruct (float_exp f =? 255).
  { intros E; apply some_inj in E; subst r. unfold INT_MAX, INT_MIN.
    destruct (float_sign f =? 1); lia. }
  destruct (float_exp f <? 150).
  - destruct (150 - float_exp f <? L); [|discriminate].
    intros E; apply some_inj in E; subst r. rewrite apply_sign_to_int by exact HL.
    apply to_int_range.
  - destruct (float_exp f - 150 <? L); [|discriminate].
    intros E; apply some_inj in E; subst r. rewrite apply_sign_to_int by exact HL.
    apply to_int_range.
Qed.

End FtoiMore.

(** X1.  [msensor_ftoi] runs into a shift by at least the width of
    [unsigned long], which C leaves undefined, exactly for the normal
    numbers whose exponent field is at most [150 - LONG_BITS] or at
    least [150 + LONG_BITS]; every other bit pattern has a result. *)
Theorem ftoi_undefined_iff (LONG_BITS f : Z) (dp : nat) :
  32 <= LONG_BITS ->
  (msensor_ftoi LONG_BITS f dp = None
   <-> 0 < float_exp f < 255
       /\ (LONG_BITS <= 150 - float_exp f \/ LONG_BITS <= float_exp f - 150)).
Proof.
  intros HL. rewrite (ftoi_unfold LONG_BITS HL). cbv zeta.
  pose proof (float_exp_range f) as He.
  destruct (Z.eqb_spec (float_exp f) 0) as [E0|E0].
  { split; [discriminate | lia]. }
  destruct (Z.eqb_spec (float_exp f) 255) as [E1|E1].
  { split; [discriminate | lia]. }
  destruct (Z.ltb_spec (float_exp f) 150).
  - destruct (Z.ltb_spec (150 - float_exp f) LONG_BITS).
    + split; [discriminate | lia].
    + split; [lia | reflexivity].
  - destruct (Z.ltb_spec (float_exp f - 150) LONG_BITS).
    + split; [discriminate | lia].
    + split; [lia | reflexivity].
Qed.

(** An instance of X1: on a 32-bit [unsigned long] the float 0.001
    ([0x3A83126F], exponent field 117) asks for a shift by 33. *)
Lemma ftoi_undefined_iff_witness :
  msensor_ftoi 32 0x3A83126F 3 = None
  <-> 0 < float_exp 0x3A83126F < 255
      /\ (32 <= 150 - float_exp 0x3A83126F \/ 32 <= float_exp 0x3A83126F - 150).
Proof. apply (ftoi_undefined_iff 32 0x3A83126F 3). lia. Defined.

(** X2.  Below exponent 150, when nothing overflows, the magnitude of
    the result is the quotient of the scaled mantissa by [2^k],
    [k = 150 - e], plus one exactly when the remainder plus half the
    remainder reaches [2^k]. *)
Theorem ftoi_right_shift_rounding (LONG_BITS f : Z) (dp : nat) :
  32 <= LONG_BITS ->
  0 < float_exp f < 150 ->
  150 - float_exp f < LONG_BITS ->
  scaled_mant f dp + scaled_mant f dp / 2 < 2 ^ LONG_BITS ->
  scaled_mant f dp / 2 ^ (150 - float_exp f) < INT_MAX ->
  let k := 150 - float_exp f in
  let r := scaled_mant f dp mod 2 ^ k in
  msensor_ftoi LONG_BITS f dp
  = Some (float_sign f
          * (scaled_mant f dp / 2 ^ k + (if 2 ^ k <=? r + r / 2 then 1 else 0))).
Proof.
  intros HL He Hk Hfit Hq k r.
  pose proof (scaled_mant_pos f dp) as Hpos.
  assert (Emag : ideal_magnitude f dp
                 = scaled_mant f dp / 2 ^ k + (if 2 ^ k <=? r + r / 2 then 1 else 0)).
  { unfold ideal_magnitude. destruct (Z.ltb_spec (float_exp f) 150); [|lia].
    apply ftoi_rounding_threshold; lia. }
  rewrite <- Emag. apply (ftoi_no_overflow LONG_BITS HL); try lia.
  rewrite Emag. destruct (2 ^ k <=? r + r / 2); fold k in Hq; lia.
Qed.

(** Instances of X2: 0.6 ([0x3F19999A]) goes down to 0 and 0.7
    ([0x3F333333]) goes up to 1. *)
Lemma ftoi_right_shift_rounding_witness :
  msensor_ftoi 32 0x3F19999A 0 = Some 0 /\ msensor_ftoi 32 0x3F333333 0 = Some 1.
Proof.
  split.
  - apply (ftoi_right_shift_rounding 32 0x3F19999A 0); vm_compute;
      first [discriminate | split; reflexivity | reflexivity].
  - apply (ftoi_right_shift_rounding 32 0x3F333333 0); vm_compute;
      first [discriminate | split; reflexivity | reflexivity].
Defined.

(** X3.  Setting the sign bit of a bit pattern that is not an infinity
    or a NaN negates the result, in 32-bit two's complement: it is
    the exact negation unless the result was [INT_MIN]. *)
Theorem ftoi_sign_bit_negates (LONG_BITS f : Z) (dp : nat) :
  32 <= LONG_BITS -> 0 <= f < 2 ^ 31 -> float_exp f <> 255 ->
  msensor_ftoi LONG_BITS (f + 2 ^ 31) dp
  = option_map (fun r => to_int (- r)) (msensor_ftoi LONG_BITS f dp)
  /\ (forall r, msensor_ftoi LONG_BITS f dp = Some r -> r <> INT_MIN ->
                msensor_ftoi LONG_BITS (f + 2 ^ 31) dp = Some (- r)).
Proof.
  intros HL Hf Hnan.
  destruct (sign_bit_fields f Hf) as (Eexp & Emant & Epos & Eneg).
  assert (Erun : msensor_ftoi LONG_BITS (f + 2 ^ 31) dp
                 = option_map (fun r => to_int (- r)) (msensor_ftoi LONG_BITS f dp)).
  { rewrite !(ftoi_unfold LONG_BITS HL). cbv zeta.
    unfold scaled_mant. rewrite Eexp, Emant, Epos, Eneg.
    destruct (float_exp f =? 0); [reflexivity|].
    destruct (Z.eqb_spec (float_exp f) 255); [contradiction|].
    destruct (float_exp f <? 150).
    - destruct (150 - float_exp f <? LONG_BITS); [|reflexivity].
      cbn [option_map]. f_equal. rewrite !(apply_sign_to_int LONG_BITS HL).
      rewrite to_int_opp_to_int. f_equal. lia.
    - destruct (float_exp f - 150 <? LONG_BITS); [|reflexivity].
      cbn [option_map]. f_equal. rewrite !(apply_sign_to_int LONG_BITS HL).
      rewrite to_int_opp_to_int. f_equal. lia. }
  split; [exact Erun|].
  intros r Hr Hmin. rewrite Erun, Hr. cbn [option_map]. f_equal.
  apply to_int_small.
  pose proof (ftoi_result_range LONG_BITS HL f dp r Hr). unfold INT_MIN in Hmin. lia.
Qed.

(** An instance of X3: 123.456 and -123.456 with two decimal places. *)
Lemma ftoi_sign_bit_negates_witness :
  msensor_ftoi 32 (0x42F6E979 + 2 ^ 31) 2
  = option_map (fun r => to_int (- r)) (msensor_ftoi 32 0x42F6E979 2).
Proof.
  apply (proj1 (ftoi_sign_bit_negates 32 0x42F6E979 2 ltac:(lia) ltac:(lia)
                  ltac:(vm_compute; discriminate))).
Defined.

(** ** More on [msensor_itof] *)

Section ItofMore.

Variable L : Z.
Hypothesis HL : 32 <= L.

(** What the loops keep, whatever their input. *)
Lemma norm_down_inv (fuel : nat) : forall f e f' e',
  norm_down fuel f e = Some (f', e') ->
  0 <= f -> 0 <= e < 256 ->
  0 <= f' < 2 ^ 24 /\ 0 <= e' < 256.
Proof.
  induction fuel as [|fuel IH]; intros f e f' e' Hrun Hf He.
  - cbn [norm_down] in Hrun.
    destruct (Z.lt_ge_cases f (2 ^ 24)).
    + rewrite below_2_24 in Hrun by lia. injection Hrun as <- <-. lia.
    + rewrite above_2_24 in Hrun by lia. discriminate.
  - cbn [norm_down] in Hrun.
    destruct (Z.lt_ge_cases f (2 ^ 24)).
    + rewrite below_2_24 in Hrun by lia. injection Hrun as <- <-. lia.
    + rewrite above_2_24 in Hrun by lia.
      apply IH in Hrun; [exact Hrun | |].
      * rewrite Z.shiftr_div_pow2 by lia. apply Z.div_pos; lia.
      * unfold to_uchar. apply Z.mod_pos_bound. lia.
Qed.

Lemma norm_up_inv (fuel : nat) : forall f e f' e',
  norm_up L fuel f e = Some (f', e') ->
  0 <= f < 2 ^ 24 -> 0 <= e < 256 ->
  2 ^ 23 <= f' < 2 ^ 24 /\ 0 <= e' < 256.
Proof.
  pose proof (pow2_L_ge L HL) as HLge.
  induction fuel as [|fuel IH]; intros f e f' e' Hrun Hf He.
  - cbn [norm_up] in Hrun.
    destruct (Z.lt_ge_cases f (2 ^ 23)).
    + rewrite below_2_23 in Hrun by lia. discriminate.
    + rewrite above_2_23 in Hrun by lia. injection Hrun as <- <-. lia.
  - cbn [norm_up] in Hrun.
    destruct (Z.lt_ge_cases f (2 ^ 23)).
    + rewrite below_2_23 in Hrun by lia.
      rewrite Z.shiftl_mul_pow2 in Hrun by lia. change (2 ^ 1) with 2 in Hrun.
      rewrite (to_ulong_small L) in Hrun by lia.
      apply IH in Hrun; [exact Hrun | lia |].
      unfold to_uchar. apply Z.mod_pos_bound. lia.
    + rewrite above_2_23 in Hrun by lia. injection Hrun as <- <-. lia.
Qed.

Lemma div10_loop_nonneg (n : nat) : forall f, 0 <= f -> 0 <= div10_loop n f.
Proof.
  induction n as [|n IH]; intros f Hf; cbn [div10_loop]; [exact Hf|].
  apply IH. apply Z.div_pos; lia.
Qed.

Lemma to_ulong_nonneg x : 0 <= to_ulong L x.
Proof. unfold to_ulong. apply Z.mod_pos_bound. apply Z.pow_pos_nonneg; lia. Qed.

End ItofMore.







(** Without decimals and below [2^24] nothing is lost on the way to
    the float and back. *)
Lemma roundtrip_exact_magnitude (L : Z) (fuel : nat) (v : Z) :
  32 <= L -> (30 <= fuel)%nat ->
  - 2 ^ 24 < v < 2 ^ 24 -> v <> 0 ->
  Z.abs v * 2 ^ 23 < 2 ^ L ->
  exists bits,
    msensor_itof L fuel v 0 = Some bits
    /\ msensor_ftoi L bits 0 = Some ((if v <? 0 then -1 else 1) * Z.abs v).
Proof.
  intros HL Hfuel Hv Hnz Hfit.
  pose proof (pow2_L_ge L HL) as HLge.
  destruct (itof_spec L HL fuel v 0) as (m & e & Hrun & Hm & He & Hcase);
    try lia.
  change (10 ^ Z.of_nat 0) with 1 in Hcase. rewrite Z.div_1_r in Hcase.
  destruct (decode_fields (m - 2 ^ 23) e (v <? 0)) as (Hs & Hexp & Hmant);
    try lia.
  cbv zeta in Hs, Hexp, Hmant.
  replace (m - 2 ^ 23 + 2 ^ 23) with m in Hmant by lia.
  eexists. split; [exact Hrun|].
  set (bits := m - 2 ^ 23 + e * 2 ^ 23 + (if v <? 0 then 2 ^ 31 else 0)) in *.
  set (a := Z.abs v) in *.
  assert (Ha : 1 <= a < 2 ^ 24) by (subst a; lia).
  assert (HI : scaled_mant bits 0 = m).
  { unfold scaled_mant. rewrite Hmant. change (10 ^ Z.of_nat 0) with 1. lia. }
  assert (Hhalf : m + m / 2 < 2 ^ L).
  { pose proof (Z.mul_div_le m 2 ltac:(lia)). lia. }
  assert (Hmag : ideal_magnitude bits 0 = a /\ (e < 150 -> 150 - e < L)).
  { unfold ideal_magnitude. rewrite Hexp, HI.
    destruct Hcase as [(k & Hk & -> & Hmk) | (k & Hk & -> & Hmk)].
    - assert (HP : 0 < 2 ^ k) by (apply Z.pow_pos_nonneg; lia).
      pose proof (Z.mul_div_le (a * 2 ^ 23) (2 ^ k) HP) as Hle.
      rewrite <- Hmk in Hle.
      assert (Hk24 : k < 24).
      { apply (Z.pow_lt_mono_r_iff 2); try lia; nia. }
      destruct (Z.lt_ge_cases k 23) as [Hlo|Hhi].
      + assert (Em : m = a * 2 ^ (23 - k)).
        { rewrite Hmk.
          replace (a * 2 ^ 23) with (a * 2 ^ (23 - k) * 2 ^ k).
          - apply Z.div_mul. lia.
          - rewrite <- Z.mul_assoc, <- Z.pow_add_r by lia. do 2 f_equal. lia. }
        destruct (Z.ltb_spec (127 + k) 150); [|lia].
        replace (150 - (127 + k)) with (23 - k) by lia.
        assert (HS : 0 < 2 ^ (23 - k)) by (apply Z.pow_pos_nonneg; lia).
        split; [|lia].
        rewrite Em, Z.mod_mul by lia. change (0 / 2) with 0.
        rewrite Z.add_0_r. apply Z.div_mul. lia.
      + assert (k = 23) by lia. subst k.
        destruct (Z.ltb_spec (127 + 23) 150); [lia|].
        change (127 + 23 - 150) with 0. change (2 ^ 0) with 1.
        split; [|lia]. rewrite Hmk, Z.div_mul by lia. lia.
    - assert (HP : 0 < 2 ^ k) by (apply Z.pow_pos_nonneg; lia).
      assert (Hk1 : 23 + k < 24).
      { apply (Z.pow_lt_mono_r_iff 2); try lia;
          rewrite Z.pow_add_r by lia; nia. }
      assert (k = 0) by lia. subst k.
      destruct (Z.ltb_spec (127 - 0) 150); [|lia].
      change (150 - (127 - 0)) with 23. split; [|lia].
      rewrite Hmk. change (2 ^ 0) with 1. rewrite Z.mul_1_r.
      rewrite Z.mod_mul by lia. change (0 / 2) with 0.
      rewrite Z.add_0_r. apply Z.div_mul. lia. }
  destruct Hmag as (Hmag & Hsh).
  rewrite (ftoi_no_overflow L HL).
  - now rewrite Hs, Hmag.
  - lia.
  - intros Hlt. rewrite Hexp, HI. rewrite Hexp in Hlt. split; [apply Hsh|]; lia.
  - rewrite Hmag. unfold INT_MAX. lia.
Qed.

(** X7.  Without decimal places the round trip is exact: for
    [|v| < 2^24] whose shifted magnitude fits in an [unsigned long],
    converting [v] to a float and back gives [v]. *)
Theorem roundtrip_exact_without_decimals (LONG_BITS : Z) (fuel : nat) (v : Z) :
  32 <= LONG_BITS -> (30 <= fuel)%nat ->
  - 2 ^ 24 < v < 2 ^ 24 ->
  Z.abs v * 2 ^ 23 < 2 ^ LONG_BITS ->
  exists bits,
    msensor_itof LONG_BITS fuel v 0 = Some bits
    /\ msensor_ftoi LONG_BITS bits 0 = Some v.
Proof.
  intros HL Hfuel Hv Hfit.
  destruct (Z.eq_dec v 0) as [-> | Hnz].
  - exists 0. split; [reflexivity|].
    apply (ftoi_zero_exp LONG_BITS HL 0 0). reflexivity.
  - destruct (roundtrip_exact_magnitude LONG_BITS fuel v HL Hfuel Hv Hnz Hfit)
      as (bits & Hitof & Hftoi).
    exists bits. split; [exact Hitof|]. rewrite Hftoi. f_equal.
    destruct (Z.ltb_spec v 0); lia.
Qed.

(** Instances of X7: -511 on a 32-bit [unsigned long], 16777215 on a
    64-bit one. *)
Lemma roundtrip_exact_without_decimals_witness :
  (exists bits, msensor_itof 32 30 (-511) 0 = Some bits
                /\ msensor_ftoi 32 bits 0 = Some (-511))
  /\ (exists bits, msensor_itof 64 30 16777215 0 = Some bits
                   /\ msensor_ftoi 64 bits 0 = Some 16777215).
Proof.
  split.
  - apply (roundtrip_exact_without_decimals 32 30 (-511)); try lia;
      vm_compute; reflexivity.
  - apply (roundtrip_exact_without_decimals 64 30 16777215); try lia;
      vm_compute; reflexivity.
Defined.

(** X8.  Negating the input only sets the sign bit: for [0 < v < 2^31]
    the conversion of [-v] is the conversion of [v] plus [2^31], and
    one runs for ever exactly when the other does. *)
Theorem itof_negation (LONG_BITS : Z) (fuel : nat) (v : Z) (dp : nat) :
  32 <= LONG_BITS -> 0 < v < 2 ^ 31 ->
  msensor_itof LONG_BITS fuel (- v) dp
  = option_map (fun bits => bits + 2 ^ 31) (msensor_itof LONG_BITS fuel v dp).
Proof.
  intros HL Hv.
  pose proof (pow2_L_ge LONG_BITS HL) as HLge.
  unfold msensor_itof.
  destruct (Z.ltb_spec (- v) 0); [|lia].
  destruct (Z.ltb_spec v 0); [lia|].
  destruct (Z.eqb_spec (- v) 0); [lia|].
  destruct (Z.eqb_spec v 0); [lia|].
  replace (- v * -1) with (v * 1) by lia.
  set (f0 := div10_loop dp _).
  assert (Hf0 : 0 <= f0).
  { apply div10_loop_nonneg. apply (to_ulong_nonneg LONG_BITS HL). }
  destruct (norm_down fuel f0 127) as [[f1 e1]|] eqn:E1; cbn [obind option_map];
    [|reflexivity].
  destruct (norm_down_inv fuel f0 127 f1 e1 E1 Hf0 ltac:(lia)) as (Hf1 & He1).
  destruct (norm_up LONG_BITS fuel f1 e1) as [[f2 e2]|] eqn:E2;
    cbn [obind option_map]; [|reflexivity].
  destruct (norm_up_inv LONG_BITS HL fuel f1 e1 f2 e2 E2 Hf1 He1) as (Hf2 & He2).
  change (Z.shiftl 1 23) with (2 ^ 23).
  rewrite (to_ulong_small LONG_BITS) by lia.
  change (-1 =? -1) with true. change (1 =? -1) with false. cbv iota.
  f_equal.
  rewrite (itof_encode (f2 - 2 ^ 23) e2 true) by lia.
  rewrite (itof_encode (f2 - 2 ^ 23) e2 false) by lia.
  lia.
Qed.

(** An instance of X8: 500 and -500 with one decimal place. *)
Lemma itof_negation_witness :
  msensor_itof 32 30 (- 500) 1
  = option_map (fun bits => bits + 2 ^ 31) (msensor_itof 32 30 500 1).
Proof. apply (itof_negation 32 30 500 1); lia. Defined.

(** ** The other value formats *)

(** One byte and four bytes, low byte first, as one number. *)
Lemma load_le_1 mem off b0 :
  0 <= off ->
  nth_error mem (Z.to_nat off) = Some b0 ->
  load_le 1 mem off = Some b0.
Proof.
  intros Hoff H0. cbn [load_le]. unfold load_u8.
  destruct (Z.ltb_spec off 0); [lia|].
  rewrite H0. cbn [obind]. now rewrite Z.shiftl_0_l, Z.lor_0_r.
Qed.

Lemma load_le_4 mem off b0 b1 b2 b3 :
  0 <= off ->
  nth_error mem (Z.to_nat off) = Some b0 ->
  nth_error mem (Z.to_nat (off + 1)) = Some b1 ->
  nth_error mem (Z.to_nat (off + 2)) = Some b2 ->
  nth_error mem (Z.to_nat (off + 3)) = Some b3 ->
  0 <= b0 < 256 -> 0 <= b1 < 256 -> 0 <= b2 < 256 -> 0 <= b3 < 256 ->
  load_le 4 mem off = Some (b0 + 256 * b1 + 65536 * b2 + 16777216 * b3).
Proof.
  intros Hoff H0 H1 H2 H3 Hb0 Hb1 Hb2 Hb3. cbn [load_le]. unfold load_u8.
  replace (off + 1 + 1) with (off + 2) by lia.
  replace (off + 2 + 1) with (off + 3) by lia.
  destruct (Z.ltb_spec off 0); [lia|].
  destruct (Z.ltb_spec (off + 1) 0); [lia|].
  destruct (Z.ltb_spec (off + 2) 0); [lia|].
  destruct (Z.ltb_spec (off + 3) 0); [lia|].
  rewrite H0, H1, H2, H3. cbn [obind]. f_equal.
  rewrite Z.shiftl_0_l, Z.lor_0_r.
  rewrite (lor_low_shiftl b2 b3 8) by lia.
  rewrite (lor_low_shiftl b1 _ 8) by lia.
  rewrite (lor_low_shiftl b0 _ 8) by lia.
  lia.
Qed.

(** X9.  In a mode of format [MSENSOR_DATA_8], for an index in range
    whose byte [b0] lies in the buffer at offset [index],
    [msensor_raw_s8_value] is that byte read as a signed 8-bit number,
    and the value attribute prints it. *)
Theorem s8_value_decoding (LONG_BITS : Z) (context : Type)
        (ms : msensor_device context) (ctx : context) (buf : string)
        (index : Z) (mi : msensor_mode_info) (b0 : Z) :
  mode_at ms (get_mode ms ctx) = Some mi ->
  format mi = MSENSOR_DATA_8 ->
  0 <= index < data_sets mi ->
  nth_error (raw_data mi) (Z.to_nat index) = Some b0 ->
  0 <= b0 < 256 ->
  msensor_raw_s8_value ms ctx index = Some (s8_of_byte b0)
  /\ - 128 <= s8_of_byte b0 < 128
  /\ show_value_at LONG_BITS ms ctx buf index
     = Some (sprintf_d_nl (s8_of_byte b0)).
Proof.
  intros Hmode Hfmt Hix H0 Hb0.
  assert (Eraw : msensor_raw_s8_value ms ctx index = Some (s8_of_byte b0)).
  { unfold msensor_raw_s8_value. rewrite Hmode. cbn [obind].
    rewrite (load_le_1 _ _ b0) by (try assumption; lia).
    cbn [obind]. reflexivity. }
  split; [exact Eraw|]. split.
  { unfold s8_of_byte. destruct (Z.ltb_spec b0 128); lia. }
  unfold show_value_at. rewrite Hmode. cbn [obind].
  destruct (Z.ltb_spec index 0); [lia|].
  rewrite Z.geb_leb. destruct (Z.leb_spec (data_sets mi) index); [lia|].
  cbn [orb]. rewrite Hfmt, Eraw. reflexivity.
Qed.

(** An instance of X9: the byte 200 is shown as -56. *)
Lemma s8_value_decoding_witness :
  msensor_raw_s8_value float_device 1 0 = Some (-56)
  /\ - 128 <= -56 < 128
  /\ show_value_at 32 float_device 1 EmptyString 0
     = Some (4, ("-56" ++ String "010" EmptyString)%string).
Proof.
  apply (s8_value_decoding 32 Z float_device 1 EmptyString 0 _ 200 eq_refl eq_refl);
    try reflexivity; cbn; lia.
Defined.

(** X10.  In a mode of format [MSENSOR_DATA_32], for an index in range
    whose four bytes lie in the buffer at offset [index * 4],
    [msensor_raw_s32_value] is the signed 32-bit number with these
    bytes, low byte first, and the value attribute prints it. *)
Theorem s32_value_decoding (LONG_BITS : Z) (context : Type)
        (ms : msensor_device context) (ctx : context) (buf : string)
        (index : Z) (mi : msensor_mode_info) (b0 b1 b2 b3 : Z) :
  mode_at ms (get_mode ms ctx) = Some mi ->
  format mi = MSENSOR_DATA_32 ->
  0 <= index < data_sets mi ->
  nth_error (raw_data mi) (Z.to_nat (index * 4)) = Some b0 ->
  nth_error (raw_data mi) (Z.to_nat (index * 4 + 1)) = Some b1 ->
  nth_error (raw_data mi) (Z.to_nat (index * 4 + 2)) = Some b2 ->
  nth_error (raw_data mi) (Z.to_nat (index * 4 + 3)) = Some b3 ->
  0 <= b0 < 256 -> 0 <= b1 < 256 -> 0 <= b2 < 256 -> 0 <= b3 < 256 ->
  msensor_raw_s32_value ms ctx index = Some (s32_of_bytes b0 b1 b2 b3)
  /\ INT_MIN <= s32_of_bytes b0 b1 b2 b3 <= INT_MAX
  /\ show_value_at LONG_BITS ms ctx buf index
     = Some (sprintf_d_nl (s32_of_bytes b0 b1 b2 b3)).
Proof.
  intros Hmode Hfmt Hix H0 H1 H2 H3 Hb0 Hb1 Hb2 Hb3.
  assert (Eraw : msensor_raw_s32_value ms ctx index
                 = Some (s32_of_bytes b0 b1 b2 b3)).
  { unfold msensor_raw_s32_value. rewrite Hmode. cbn [obind].
    rewrite (load_le_4 _ _ b0 b1 b2 b3) by (try assumption; lia).
    cbn [obind]. reflexivity. }
  split; [exact Eraw|]. split.
  { unfold s32_of_bytes, INT_MIN, INT_MAX. cbv zeta.
    destruct (Z.ltb_spec (b0 + 256 * b1 + 65536 * b2 + 16777216 * b3) 2147483648);
      lia. }
  unfold show_value_at. rewrite Hmode. cbn [obind].
  destruct (Z.ltb_spec index 0); [lia|].
  rewrite Z.geb_leb. destruct (Z.leb_spec (data_sets mi) index); [lia|].
  cbn [orb]. rewrite Hfmt, Eraw. reflexivity.
Qed.

(** An instance of X10: the bytes 104 to 107 of the third sample mode. *)
Lemma s32_value_decoding_witness :
  msensor_raw_s32_value abc_device 2 1 = Some 1802135912
  /\ INT_MIN <= 1802135912 <= INT_MAX
  /\ show_value_at 32 abc_device 2 EmptyString 1
     = Some (11, ("1802135912" ++ String "010" EmptyString)%string).
Proof.
  apply (s32_value_decoding 32 Z abc_device 2 EmptyString 1 _ 104 105 106 107
           eq_refl eq_refl);
    try reflexivity; cbn; lia.
Defined.

(** X11.  In a mode of format [MSENSOR_DATA_FLOAT] the value attribute
    hands the four bytes at offset [index * 4], low byte first, to
    [msensor_ftoi] with the decimal places of the mode, and prints the
    result; where [msensor_ftoi] is undefined, so is the attribute. *)
Theorem float_value_decoding (LONG_BITS : Z) (context : Type)
        (ms : msensor_device context) (ctx : context) (buf : string)
        (index : Z) (mi : msensor_mode_info) (b0 b1 b2 b3 : Z) :
  mode_at ms (get_mode ms ctx) = Some mi ->
  format mi = MSENSOR_DATA_FLOAT ->
  0 <= index < data_sets mi ->
  nth_error (raw_data mi) (Z.to_nat (index * 4)) = Some b0 ->
  nth_error (raw_data mi) (Z.to_nat (index * 4 + 1)) = Some b1 ->
  nth_error (raw_data mi) (Z.to_nat (index * 4 + 2)) = Some b2 ->
  nth_error (raw_data mi) (Z.to_nat (index * 4 + 3)) = Some b3 ->
  0 <= b0 < 256 -> 0 <= b1 < 256 -> 0 <= b2 < 256 -> 0 <= b3 < 256 ->
  let bits := b0 + 256 * b1 + 65536 * b2 + 16777216 * b3 in
  msensor_raw_float_value LONG_BITS ms ctx index
  = msensor_ftoi LONG_BITS bits (decimals mi)
  /\ float_exp bits = (b2 / 128 + 2 * b3) mod 256
  /\ show_value_at LONG_BITS ms ctx buf index
     = option_map sprintf_d_nl (msensor_ftoi LONG_BITS bits (decimals mi)).
Proof.
  intros Hmode Hfmt Hix H0 H1 H2 H3 Hb0 Hb1 Hb2 Hb3 bits.
  assert (Eraw : msensor_raw_float_value LONG_BITS ms ctx index
                 = msensor_ftoi LONG_BITS bits (decimals mi)).
  { unfold msensor_raw_float_value. rewrite Hmode. cbn [obind].
    rewrite (load_le_4 _ _ b0 b1 b2 b3) by (try assumption; lia).
    cbn [obind]. reflexivity. }
  split; [exact Eraw|]. split.
  { unfold float_exp, to_uchar. rewrite land_exp.
    change (2 ^ 8) with 256. rewrite Z.mod_mod by lia.
    f_equal. subst bits.
    replace (b0 + 256 * b1 + 65536 * b2 + 16777216 * b3)
      with (b0 + 256 * b1 + 65536 * (b2 mod 128)
            + (b2 / 128 + 2 * b3) * 2 ^ 23).
    - rewrite Z.div_add by lia.
      pose proof (Z.mod_pos_bound b2 128 ltac:(lia)).
      rewrite Z.div_small by lia. lia.
    - pose proof (Z.div_mod b2 128 ltac:(lia)). lia. }
  unfold show_value_at. rewrite Hmode. cbn [obind].
  destruct (Z.ltb_spec index 0); [lia|].
  rewrite Z.geb_leb. destruct (Z.leb_spec (data_sets mi) index); [lia|].
  cbn [orb]. rewrite Hfmt, Eraw.
  destruct (msensor_ftoi LONG_BITS bits (decimals mi)); reflexivity.
Qed.

(** An instance of X11: the float 100.0 with one decimal place is
    shown as 1000. *)
Lemma float_value_decoding_witness :
  msensor_raw_float_value 32 float_device 0 0
  = msensor_ftoi 32 (0x00 + 256 * 0x00 + 65536 * 0xC8 + 16777216 * 0x42) 1
  /\ float_exp (0x00 + 256 * 0x00 + 65536 * 0xC8 + 16777216 * 0x42)
     = (0xC8 / 128 + 2 * 0x42) mod 256
  /\ show_value_at 32 float_device 0 EmptyString 0
     = option_map sprintf_d_nl
         (msensor_ftoi 32 (0x00 + 256 * 0x00 + 65536 * 0xC8 + 16777216 * 0x42) 1).
Proof.
  apply (float_value_decoding 32 Z float_device 0 EmptyString 0 _ 0x00 0x00 0xC8 0x42
           eq_refl eq_refl);
    try reflexivity; cbn; lia.
Defined.

(** ** More on the mode attribute *)

(** Entries away from the current index are displayed as they are. *)
Lemma bracket_current_outside cur names : forall i,
  cur < i \/ i + Z.of_nat (List.length names) <= cur ->
  bracket_current cur i names = names.
Proof.
  induction names as [|n rest IH]; intros i Hout; [reflexivity|].
  cbn [bracket_current]. cbn [List.length] in Hout.
  destruct (Z.eqb_spec i cur); [lia|].
  f_equal. apply IH. lia.
Qed.

(** The entry at the current index is the one displayed in brackets. *)
Lemma bracket_current_split cur pre n post : forall i,
  cur = i + Z.of_nat (List.length pre) ->
  bracket_current cur i (pre ++ n :: post)
  = pre ++ ("[" ++ n ++ "]")%string :: post.
Proof.
  induction pre as [|p pre IH]; intros i Hcur.
  - cbn [List.length] in Hcur. cbn [app bracket_current].
    destruct (Z.eqb_spec i cur); [|lia].
    f_equal. apply bracket_current_outside. lia.
  - cbn [List.length] in Hcur. cbn [app bracket_current].
    destruct (Z.eqb_spec i cur); [lia|].
    f_equal. apply IH. lia.
Qed.

(** X12.  When the driver reports a current mode outside the table,
    [msensor_show_mode] still succeeds: it lists every name, separated
    by one space and followed by a newline, and brackets none. *)
Theorem show_mode_without_current (context : Type) (ms : msensor_device context)
        (ctx : context) (buf : string) :
  mode_info ms <> [] ->
  get_mode ms ctx < 0 \/ num_modes ms <= get_mode ms ctx ->
  let line := (String.concat " " (map name (mode_info ms))
               ++ String "010" EmptyString)%string in
  msensor_show_mode ms ctx buf = (Z.of_nat (String.length line), line).
Proof.
  intros Hne Hout line.
  rewrite (show_mode_nonempty context ms ctx buf Hne).
  unfold mode_list_display.
  rewrite bracket_current_outside; [reflexivity|].
  rewrite length_map. unfold num_modes in Hout. lia.
Qed.

(** An instance of X12: the table A, B, C with the driver reporting
    mode 7. *)
Lemma show_mode_without_current_witness :
  msensor_show_mode abc_device 7 EmptyString
  = (6, ("A B C" ++ String "010" EmptyString)%string).
Proof.
  apply (show_mode_without_current Z abc_device 7 EmptyString).
  - discriminate.
  - right. vm_compute. discriminate.
Defined.

(** X13.  Writing a name and reading the attribute back: when entry
    [i] is the first one that the written text matches, the driver
    accepts the switch and then reports [i] as its current mode, the
    write returns [count] and the next read lists the names with that
    entry, and only that entry, in brackets. *)
Theorem store_then_show_mode (context : Type)
        (sysfs_streq : string -> string -> bool)
        (ms : msensor_device context) (ctx ctx' : context)
        (buf out : string) (count : Z)
        (pre post : list msensor_mode_info) (mi : msensor_mode_info) :
  mode_info ms = pre ++ mi :: post ->
  (forall m, In m pre -> sysfs_streq buf (name m) = false) ->
  sysfs_streq buf (name mi) = true ->
  set_mode ms ctx (Z.of_nat (List.length pre)) = (ctx', 0) ->
  get_mode ms ctx' = Z.of_nat (List.length pre) ->
  let line := (String.concat " "
                 (map name pre ++ ("[" ++ name mi ++ "]")%string :: map name post)
               ++ String "010" EmptyString)%string in
  msensor_store_mode sysfs_streq ms ctx buf count = (ctx', count)
  /\ msensor_show_mode ms ctx' out = (Z.of_nat (String.length line), line).
Proof.
  intros Htab Hpre Hmi Hset Hget line. split.
  - unfold msensor_store_mode. rewrite Htab.
    rewrite (store_mode_loop_first_match context sysfs_streq ms pre mi post 0 ctx buf count Hpre Hmi).
    unfold switch_to. rewrite Z.add_0_l, Hset. reflexivity.
  - rewrite (show_mode_nonempty context ms ctx' out)
      by (rewrite Htab; destruct pre; discriminate).
    unfold mode_list_display. rewrite Htab, Hget, map_app. cbn [map].
    rewrite bracket_current_split by (rewrite length_map; lia).
    reflexivity.
Qed.

(** An instance of X13: writing B and a newline to the sample device
    in mode 0. *)
Lemma store_then_show_mode_witness :
  msensor_store_mode kernel_sysfs_streq abc_device 0
    ("B" ++ String "010" EmptyString)%string 2 = (1, 2)
  /\ msensor_show_mode abc_device 1 EmptyString
     = (8, ("A [B] C" ++ String "010" EmptyString)%string).
Proof.
  apply (store_then_show_mode Z kernel_sysfs_streq abc_device 0 1
           ("B" ++ String "010" EmptyString)%string EmptyString 2
           [mk_mode "A" 0 2 MSENSOR_DATA_16 (raw32 [0x01; 0x00; 0xFF; 0xFF])]
           [mk_mode "C" 0 8 MSENSOR_DATA_32 (map Z.of_nat (seq 100 32))]
           (mk_mode "B" 1 1 MSENSOR_DATA_8 (raw32 [200]))).
  - reflexivity.
  - intros m [<- | []]. reflexivity.
  - reflexivity.
  - reflexivity.
  - reflexivity.
Defined.

(** ** More on the binary attribute *)

(** The buffer after [memcpy(dst + off, src, n)]. *)
Lemma memcpy_frame (dst src : list Z) (o n : nat) :
  (o + n <= List.length dst)%nat -> (n <= List.length src)%nat ->
  let dst' := firstn o dst ++ firstn n src ++ skipn (o + n) dst in
  List.length dst' = List.length dst
  /\ (forall j, (j < o)%nat \/ (o + n <= j)%nat ->
        nth_error dst' j = nth_error dst j)
  /\ (forall j, (j < n)%nat -> nth_error dst' (o + j) = nth_error src j).
Proof.
  intros Hdst Hsrc dst'.
  assert (Lo : List.length (firstn o dst) = o)
    by (rewrite length_firstn; lia).
  assert (Ln : List.length (firstn n src) = n)
    by (rewrite length_firstn; lia).
  split; [|split].
  - unfold dst'. rewrite !length_app, Lo, Ln, length_skipn. lia.
  - intros j [Hj | Hj]; unfold dst'.
    + rewrite nth_error_app1 by lia. rewrite nth_error_firstn.
      destruct (Nat.ltb_spec j o); [reflexivity | lia].
    + rewrite nth_error_app2 by lia. rewrite Lo.
      rewrite nth_error_app2 by lia. rewrite Ln.
      rewrite nth_error_skipn. f_equal. lia.
  - intros j Hj. unfold dst'.
    rewrite nth_error_app2 by lia. rewrite Lo.
    replace (o + j - o)%nat with j by lia.
    rewrite nth_error_app1 by lia. rewrite nth_error_firstn.
    destruct (Nat.ltb_spec j n); [reflexivity | lia].
Qed.

(** X14.  A read inside the attribute returns the number of bytes
    asked for, clipped to what is left after the offset, keeps the
    length of the page, changes no byte of it outside
    [off, off + n), and puts the first [n] bytes of the raw buffer
    there. *)
Theorem read_bin_data_frame (context : Type) (ms : msensor_device context)
        (ctx : context) (attr_size : Z) (buf : list Z) (off count : Z)
        (mi : msensor_mode_info) :
  mode_at ms (get_mode ms ctx) = Some mi ->
  0 <= off < attr_size -> 0 < count ->
  let n := Z.min count (attr_size - off) in
  off + n <= Z.of_nat (List.length buf) ->
  n <= Z.of_nat (List.length (raw_data mi)) ->
  exists buf',
    msensor_read_bin_data ms ctx attr_size buf off count = Some (n, buf')
    /\ 0 < n <= count /\ off + n <= attr_size
    /\ List.length buf' = List.length buf
    /\ (forall j, (j < Z.to_nat off)%nat \/ (Z.to_nat (off + n) <= j)%nat ->
          nth_error buf' j = nth_error buf j)
    /\ (forall j, (j < Z.to_nat n)%nat ->
          nth_error buf' (Z.to_nat off + j) = nth_error (raw_data mi) j).
Proof.
  intros Hmode Hoff Hcount n Hbuf Hraw.
  assert (E : Z.to_nat (off + n) = (Z.to_nat off + Z.to_nat n)%nat) by lia.
  exists (firstn (Z.to_nat off) buf
            ++ firstn (Z.to_nat n) (raw_data mi)
            ++ skipn (Z.to_nat (off + n)) buf).
  split.
  { apply (read_bin_data_copy context ms ctx attr_size buf off count mi);
      assumption. }
  split; [lia|]. split; [lia|].
  rewrite E.
  apply (memcpy_frame buf (raw_data mi) (Z.to_nat off) (Z.to_nat n)); lia.
Qed.

(** An instance of X14: 8 bytes at offset 4 of the third sample mode. *)
Lemma read_bin_data_frame_witness :
  exists buf',
    msensor_read_bin_data abc_device 2 32 zero_page 4 8 = Some (8, buf')
    /\ 0 < 8 <= 8 /\ 4 + 8 <= 32
    /\ List.length buf' = List.length zero_page
    /\ (forall j, (j < Z.to_nat 4)%nat \/ (Z.to_nat (4 + 8) <= j)%nat ->
          nth_error buf' j = nth_error zero_page j)
    /\ (forall j, (j < Z.to_nat 8)%nat ->
          nth_error buf' (Z.to_nat 4 + j)
          = nth_error (map Z.of_nat (seq 100 32)) j).
Proof.
  apply (read_bin_data_frame Z abc_device 2 32 zero_page 4 8
           (mk_mode "C" 0 8 MSENSOR_DATA_32 (map Z.of_nat (seq 100 32)))
           eq_refl); vm_compute; try split; congruence.
Defined.

(** X15.  Where the copy would leave the page, because [off] plus the
    clipped length exceeds its size, or would read past the raw buffer,
    because [attr->size] promises more bytes than the buffer holds,
    the behaviour of [msensor_read_bin_data] is undefined. *)
Theorem read_bin_data_overrun (context : Type) (ms : msensor_device context)
        (ctx : context) (attr_size : Z) (buf : list Z) (off count : Z)
        (mi : msensor_mode_info) :
  mode_at ms (get_mode ms ctx) = Some mi ->
  0 <= off < attr_size -> 0 < count ->
  let n := Z.min count (attr_size - off) in
  Z.of_nat (List.length buf) < off + n
  \/ Z.of_nat (List.length (raw_data mi)) < n ->
  msensor_read_bin_data ms ctx attr_size buf off count = None.
Proof.
  intros Hmode Hoff Hcount n Hover. unfold msensor_read_bin_data.
  rewrite Z.geb_leb. destruct (Z.leb_spec attr_size off); [lia|].
  destruct (Z.eqb_spec count 0); [lia|]. cbn [orb].
  rewrite Hmode. cbn [obind].
  assert (En : (if count <? attr_size - off then count else attr_size - off) = n).
  { unfold n. destruct (Z.ltb_spec count (attr_size - off)); lia. }
  rewrite En. unfold memcpy.
  destruct (Z.ltb_spec off 0); [lia|].
  destruct (Z.ltb_spec n 0); [lia|].
  destruct (Z.ltb_spec (Z.of_nat (List.length buf)) (off + n));
    [reflexivity|].
  destruct (Z.ltb_spec (Z.of_nat (List.length (raw_data mi))) n);
    [reflexivity | lia].
Qed.

(** An instance of X15: an attribute of 64 bytes over the 32 bytes of
    the third sample mode. *)
Lemma read_bin_data_overrun_witness :
  msensor_read_bin_data abc_device 2 64 zero_page 0 64 = None.
Proof.
  apply (read_bin_data_overrun Z abc_device 2 64 zero_page 0 64
           (mk_mode "C" 0 8 MSENSOR_DATA_32 (map Z.of_nat (seq 100 32)))
           eq_refl); [lia | lia |].
  right. vm_compute. reflexivity.
Defined.

(** ** The text attributes of the current mode *)

(** What [msensor_itof] returns is a 32-bit word. *)
Lemma itof_bits_range (L : Z) (fuel : nat) (v : Z) (dp : nat) (bits : Z) :
  msensor_itof L fuel v dp = Some bits -> 0 <= bits < 2 ^ 32.
Proof.
  unfold msensor_itof. destruct (v =? 0).
  - intros E. apply some_inj in E. subst bits. lia.
  - destruct (norm_down _ _ _) as [[f e]|]; cbn [obind]; [|discriminate].
    destruct (norm_up _ _ _ _) as [[f' e']|]; cbn [obind]; [|discriminate].
    intros E. apply some_inj in E. subst bits.
    unfold to_uint. apply Z.mod_pos_bound. lia.
Qed.

(** Storing a 32-bit word in an [int] and reading it as a [uint]
    gives the word back. *)
Lemma to_uint_to_int x : 0 <= x < 2 ^ 32 -> to_uint (to_int x) = x.
Proof.
  intros Hx. unfold to_uint, to_int. cbv zeta.
  rewrite (Z.mod_small x) by lia.
  destruct (Z.ltb_spec x (2 ^ 31)).
  - apply Z.mod_small. lia.
  - replace (x - 2 ^ 32) with (x + (-1) * 2 ^ 32) by lia.
    rewrite Z.mod_add by lia. apply Z.mod_small. lia.
Qed.

Lemma mode_at_outside (context : Type) (ms : msensor_device context) (m : Z) :
  m < 0 \/ num_modes ms <= m -> mode_at ms m = None.
Proof.
  intros Hout. unfold mode_at, num_modes in *.
  destruct (Z.ltb_spec m 0); [reflexivity|].
  apply nth_error_None. lia.
Qed.

(** X16.  A bound that the driver has filled with
    [msensor_itof (v, decimals)] is shown by its attribute
    ([raw_min] to [si_max]) as [v] up to one unit in the last digit,
    under the conditions of the round trip; the entry read is the one
    at the current mode reduced to a [u8]. *)
Theorem show_bound_roundtrip (LONG_BITS : Z) (context : Type)
        (ms : msensor_device context) (ctx : context) (buf : string)
        (field : msensor_mode_info -> Z) (mi : msensor_mode_info)
        (fuel : nat) (v : Z) :
  32 <= LONG_BITS -> (30 <= fuel)%nat -> (decimals mi <= 3)%nat ->
  - 2 ^ 23 < v < 2 ^ 23 ->
  Z.abs v * 2 ^ 23 < 2 ^ LONG_BITS ->
  3 * 2 ^ 23 * 10 ^ Z.of_nat (decimals mi) <= 2 ^ LONG_BITS ->
  mode_at ms (get_mode ms ctx mod 256) = Some mi ->
  msensor_itof LONG_BITS fuel v (decimals mi) = Some (field mi) ->
  exists r,
    MSENSOR_SHOW_F LONG_BITS ms field ctx buf = Some (sprintf_d_nl r)
    /\ v - 1 <= r <= v + 1.
Proof.
  intros HL Hfuel Hdp Hv Hfit HfitD Hmode Hitof.
  pose proof (itof_bits_range _ _ _ _ _ Hitof) as Hbits.
  unfold MSENSOR_SHOW_F, to_uchar. rewrite Hmode. cbn [obind].
  rewrite to_uint_to_int by exact Hbits.
  destruct (Z.eq_dec v 0) as [-> | Hnz].
  - exists 0. split; [|lia].
    change (msensor_itof LONG_BITS fuel 0 (decimals mi)) with (Some 0) in Hitof.
    apply some_inj in Hitof. rewrite <- Hitof.
    rewrite (ftoi_zero_exp LONG_BITS HL 0 (decimals mi)) by reflexivity.
    reflexivity.
  - destruct (roundtrip_magnitude LONG_BITS HL fuel v (decimals mi))
      as (bits & mag & Hitof' & Hftoi & Hmag); try assumption.
    rewrite Hitof in Hitof'. apply some_inj in Hitof'. subst bits.
    exists ((if v <? 0 then -1 else 1) * mag).
    rewrite Hftoi. cbn [obind]. split; [reflexivity|].
    destruct (Z.ltb_spec v 0); lia.
Qed.

(** An instance of X16: the upper bound 100.0 of the float mode, one
    decimal place, 64-bit [unsigned long]. *)
Lemma show_bound_roundtrip_witness :
  exists r,
    msensor_show_raw_max 64 float_device 0 EmptyString = Some (sprintf_d_nl r)
    /\ 1000 - 1 <= r <= 1000 + 1.
Proof.
  apply (show_bound_roundtrip 64 Z float_device 0 EmptyString raw_max
           {| name := "F"; raw_min := 0xC2480000; raw_max := 0x42C80000;
              pct_min := 0; pct_max := 0x42C80000;
              si_min := 0xC2480000; si_max := 0x42C80000;
              units := "cm"; decimals := 1; data_sets := 1;
              format := MSENSOR_DATA_FLOAT;
              raw_data := raw32 [0x00; 0x00; 0xC8; 0x42] |} 30 1000);
    try lia; try reflexivity; cbn [decimals];
    first [lia | vm_compute; discriminate].
Defined.




